(** * zk_fee_profiler: a shallow embedding of [zkapp.py]

    The development follows the Python source function by function:
    [network_name], [pct], [sample_block_fees] and [analyze_fees].

    - Python integers are [Z].
    - Python exceptions are the [Err] side of [result]; the code does not
      catch any, so the first one raised ends the run.
    - Python floats are a type [F] with the operations the program uses
      ([FloatOps]).  The program is written once, over any [F]; the
      properties that depend on how floats order and round are proved from
      [FloatLaws], which binary64 satisfies on the finite values the
      program meets.
    - The chain client [w3] is a record of its answers, and the wall clock
      is the pair of readings of [time.time()]. *)

From Stdlib Require Import String Ascii.
From Stdlib Require DecimalString DecimalZ Finite.
From Stdlib Require Import QArith Qround Qpower Lqa.
From Stdlib Require Import ZArith List Bool Lia.
From Stdlib Require Import Permutation Sorted.
Import ListNotations.

Local Close Scope Q_scope.

Local Open Scope Z_scope.

(** ** Exceptions and the error monad *)

Inductive exn : Type :=
| ValueError        (* Web3.from_wei out of range, range() with step 0 *)
| IndexError        (* list index out of range *)
| StatisticsError   (* statistics.median of no data *)
| BlockNotFound (n : Z).  (* w3.eth.get_block(n) raised *)

Inductive result (A : Type) : Type :=
| Ok (a : A)
| Err (e : exn).

Arguments Ok {A} a.
Arguments Err {A} e.

Definition bind {A B : Type} (m : result A) (k : A -> result B) : result B :=
  match m with
  | Ok a => k a
  | Err e => Err e
  end.

Notation "x <- m ;; k" := (bind m (fun x => k))
  (at level 61, m at next level, right associativity).

Definition is_ok {A : Type} (m : result A) : bool :=
  match m with Ok _ => true | Err _ => false end.

(** A [for] loop whose body may raise: the accumulator is threaded from
    left to right and the first exception stops the loop. *)
Fixpoint for_each {A S : Type} (body : S -> A -> result S)
         (xs : list A) (s : S) : result S :=
  match xs with
  | [] => Ok s
  | x :: xs' => s' <- body s x ;; for_each body xs' s'
  end.

(** ** Floats *)

Class FloatOps (F : Type) : Type := {
  Fzero : F;                    (* 0.0 *)
  Fone : F;                     (* 1.0 *)
  F1_2 : F;                     (* the literal 1.2 *)
  Fltb : F -> F -> bool;        (* x < y *)
  Fadd : F -> F -> F;           (* x + y *)
  Fsub : F -> F -> F;           (* x - y *)
  Fmul : F -> F -> F;           (* x * y *)
  Fhalve : F -> F;              (* x / 2 *)
  Fof_int : Z -> F;             (* float(n) *)
  Fround : F -> Z;              (* round(x): nearest integer, ties to even *)
  Fround_nd : F -> Z -> F;      (* round(x, ndigits) *)
  Fgwei : Z -> F                (* float(Decimal(n) / Decimal(10**9)) *)
}.

Definition MIN_WEI : Z := 0.
Definition MAX_WEI : Z := 2 ^ 256 - 1.

(** ** Python lists *)

(** [xs[i]]: a negative index counts from the end, anything outside
    [-len, len) raises IndexError. *)
Definition py_index {A : Type} (xs : list A) (i : Z) : result A :=
  let n := Z.of_nat (length xs) in
  let j := if i <? 0 then i + n else i in
  if (j <? 0) || (n <=? j) then Err IndexError
  else match nth_error xs (Z.to_nat j) with
       | Some x => Ok x
       | None => Err IndexError
       end.

(** [range(start, stop, step)]: ValueError when [step] is 0. *)
Definition py_range_len (start stop step : Z) : Z :=
  if 0 <? step then
    (if start <? stop then (stop - start - 1) / step + 1 else 0)
  else
    (if stop <? start then (start - stop - 1) / (- step) + 1 else 0).

Definition py_range (start stop step : Z) : result (list Z) :=
  if step =? 0 then Err ValueError
  else Ok (map (fun i => start + Z.of_nat i * step)
               (seq 0 (Z.to_nat (py_range_len start stop step)))).

(** ** [network_name] *)

Definition NETWORKS : list (Z * string) :=
  [ (1, "Ethereum Mainnet");
    (11155111, "Sepolia Testnet");
    (10, "Optimism");
    (137, "Polygon");
    (42161, "Arbitrum One");
    (8453, "Base") ]%string.

Fixpoint dict_get (d : list (Z * string)) (k : Z) : option string :=
  match d with
  | [] => None
  | (k', v) :: d' => if k' =? k then Some v else dict_get d' k
  end.

(** [str(n)] of an integer. *)
Definition str_int (n : Z) : string :=
  DecimalString.NilZero.string_of_int (Z.to_int n).

Definition network_name (cid : Z) : string :=
  match dict_get NETWORKS cid with
  | Some name => name
  | None => ("Unknown (chain ID " ++ str_int cid ++ ")")%string
  end.

Section Program.

Context {F : Type} {ops : FloatOps F}.

(** [x <= y] on floats, as the negation of [y < x]. *)
Definition Fle (x y : F) : Prop := Fltb y x = false.

(** The builtins [min(a, b)] and [max(a, b)]: the first argument is kept
    unless the second is strictly smaller (larger). *)
Definition py_min2 (a b : F) : F := if Fltb b a then b else a.
Definition py_max2 (a b : F) : F := if Fltb a b then b else a.

(** [min(xs)] and [max(xs)] of a list with first element [x]. *)
Definition py_min (x : F) (xs : list F) : F := fold_left py_min2 xs x.
Definition py_max (x : F) (xs : list F) : F := fold_left py_max2 xs x.

(** [sorted(xs)]: a stable sort by [<]. *)
Fixpoint insert (x : F) (xs : list F) : list F :=
  match xs with
  | [] => [x]
  | y :: ys => if Fltb y x then y :: insert x ys else x :: y :: ys
  end.

Fixpoint sorted (xs : list F) : list F :=
  match xs with
  | [] => []
  | x :: xs' => insert x (sorted xs')
  end.

(** [statistics.median]. *)
Definition median (data : list F) : result F :=
  let data := sorted data in
  let n := length data in
  if Nat.eqb n 0 then Err StatisticsError
  else if Nat.eqb (n mod 2) 1 then py_index data (Z.of_nat (n / 2))
  else
    let i := Z.of_nat (n / 2) in
    a <- py_index data (i - 1) ;;
    b <- py_index data i ;;
    Ok (Fhalve (Fadd a b)).

(** [median(xs) if xs else 0.0]. *)
Definition median_or_zero (xs : list F) : result F :=
  match xs with
  | [] => Ok Fzero
  | _ => median xs
  end.

(** [float(Web3.from_wei(number, "gwei"))]: 0 is returned as the integer
    0, whose float is 0.0; a number outside [MIN_WEI, MAX_WEI] raises
    ValueError; any other one is divided by 10**9 as a Decimal. *)
Definition from_wei_gwei (number : Z) : result F :=
  if number =? 0 then Ok Fzero
  else if (number <? MIN_WEI) || (MAX_WEI <? number) then Err ValueError
  else Ok (Fgwei number).

(** ** [pct] *)

Definition pct (values : list F) (q : F) : result F :=
  match values with
  | [] => Ok Fzero
  | _ =>
    let q := py_max2 Fzero (py_min2 Fone q) in
    let sorted_vals := sorted values in
    let idx := Fround (Fmul q (Fof_int (Z.of_nat (length sorted_vals) - 1))) in
    py_index sorted_vals idx
  end.

(** ** Blocks and transactions

    A field of the RPC answer is [Some v] when present and [None] when the
    key is missing. *)

Record Tx : Type := {
  tx_type : option Z;
  gasPrice : option Z;
  maxFeePerGas : option Z;
  maxPriorityFeePerGas : option Z
}.

Record Block : Type := {
  baseFeePerGas : option Z;
  transactions : list Tx
}.

(** [d.get(key, 0)] and [getattr(d, key, 0)]. *)
Definition get0 (field : option Z) : Z :=
  match field with Some v => v | None => 0 end.

Record BlockFeeStats : Type := {
  base_fee_gwei : F;
  median_effective_gwei : F;
  median_tip_gwei : F
}.

(** One turn of the loop over [block.transactions]; the state is the pair
    [(effective_prices, tips)]. *)
Definition tx_step (bf : Z) (acc : list F * list F) (tx : Tx)
  : result (list F * list F) :=
  let '(effective_prices, tips) := acc in
  let tx_type := get0 (tx_type tx) in
  if tx_type =? 2 then
    let max_priority := get0 (maxPriorityFeePerGas tx) in
    let max_fee := get0 (maxFeePerGas tx) in
    let eff := Z.min max_fee (bf + max_priority) in
    e <- from_wei_gwei eff ;;
    let effective_prices := effective_prices ++ [e] in
    t <- from_wei_gwei max_priority ;;
    Ok (effective_prices, tips ++ [t])
  else
    let gas_price := get0 (gasPrice tx) in
    e <- from_wei_gwei gas_price ;;
    let effective_prices := effective_prices ++ [e] in
    let tip_wei := Z.max 0 (gas_price - bf) in
    t <- from_wei_gwei tip_wei ;;
    Ok (effective_prices, tips ++ [t]).

Definition sample_block_fees (block : Block) : result BlockFeeStats :=
  let base_fee_wei := get0 (baseFeePerGas block) in
  base_fee_gwei <- from_wei_gwei base_fee_wei ;;
  let bf := base_fee_wei in
  acc <- for_each (tx_step bf) (transactions block) ([], []) ;;
  let '(effective_prices, tips) := acc in
  me <- median_or_zero effective_prices ;;
  mt <- median_or_zero tips ;;
  Ok {| base_fee_gwei := base_fee_gwei;
        median_effective_gwei := me;
        median_tip_gwei := mt |}.

(** ** The chain client and the clock *)

Record Web3 : Type := {
  chain_id : Z;                        (* w3.eth.chain_id *)
  block_number : Z;                    (* w3.eth.block_number *)
  get_block : Z -> result Block        (* w3.eth.get_block(n, full_transactions=True) *)
}.

(** [now k] is what the [k]-th call of [time.time()] in the run returns. *)
Definition Clock : Type := nat -> F.

(** ** [analyze_fees] *)

(** The three series and the counter the sampling loop updates. *)
Record Series : Type := {
  base_fees : list F;
  effs : list F;
  tips : list F;
  sampled_blocks : Z
}.

Definition no_series : Series :=
  {| base_fees := []; effs := []; tips := []; sampled_blocks := 0 |}.

(** The body of [for n in range(head, start_block - 1, -step)]. *)
Definition sample_step (w3 : Web3) (st : Series) (n : Z) : result Series :=
  blk <- get_block w3 n ;;
  let sampled_blocks := sampled_blocks st + 1 in
  stats <- sample_block_fees blk ;;
  let base_fees := base_fees st ++ [base_fee_gwei stats] in
  let effs :=
    if Fltb Fzero (median_effective_gwei stats)
    then effs st ++ [median_effective_gwei stats] else effs st in
  let tips :=
    if Fltb Fzero (median_tip_gwei stats)
    then tips st ++ [median_tip_gwei stats] else tips st in
  Ok {| base_fees := base_fees; effs := effs; tips := tips;
        sampled_blocks := sampled_blocks |}.

Definition start_block (head blocks : Z) : Z := Z.max 0 (head - blocks + 1).

(** The heights the loop visits. *)
Definition sample_heights (head blocks step : Z) : result (list Z) :=
  py_range head (start_block head blocks - 1) (- step).

Definition sample_window (w3 : Web3) (head blocks step : Z) : result Series :=
  heights <- sample_heights head blocks step ;;
  for_each (sample_step w3) heights no_series.

Record BaseFeeGwei : Type := {
  bf_p50 : F; bf_pTarget : F; bf_min : F; bf_max : F
}.

Record MedianTipGwei : Type := { tip_p50 : F; tip_pTarget : F }.

Record RecommendedForZK : Type := {
  maxPriorityFeeGwei : F;
  maxFeePerGasGwei : F
}.

Record FeeReport : Type := {
  chainId : Z;
  network : string;
  head : Z;
  sampledBlocks : Z;
  blockWindow : Z;
  step : Z;
  targetPercentile : F;
  timingSec : F;
  baseFeeGwei : BaseFeeGwei;
  medianEffectivePriceGwei : F;
  medianTipGwei : MedianTipGwei;
  recommendedForZK : RecommendedForZK
}.

(** [pct(xs, q) if xs else 0.0]. *)
Definition pct_or_zero (xs : list F) (q : F) : result F :=
  match xs with
  | [] => Ok Fzero
  | _ => pct xs q
  end.

(** [round(min(xs), 3) if xs else 0.0], and the same with [max]. *)
Definition min_or_zero (xs : list F) : F :=
  match xs with
  | [] => Fzero
  | x :: xs' => Fround_nd (py_min x xs') 3
  end.

Definition max_or_zero (xs : list F) : F :=
  match xs with
  | [] => Fzero
  | x :: xs' => Fround_nd (py_max x xs') 3
  end.

(** [recommended_tip] and [recommended_max_fee]. *)
Definition recommended_tip (tip_p50 tip_target : F) : F :=
  Fround_nd (Fmul (py_max2 tip_p50 tip_target) F1_2) 3.

Definition recommended_max_fee (base_target recommended_tip : F) : F :=
  Fround_nd (Fadd base_target recommended_tip) 3.

(** The part of [analyze_fees] after the loop: from [elapsed] to the
    returned dictionary. *)
Definition report (w3 : Web3) (head blocks step : Z) (target_pct : F)
           (st : Series) (elapsed : F) : result FeeReport :=
  base_p50 <- median_or_zero (base_fees st) ;;
  base_target <- pct_or_zero (base_fees st) target_pct ;;
  tip_p50 <- median_or_zero (tips st) ;;
  tip_target <- pct_or_zero (tips st) target_pct ;;
  let recommended_tip := recommended_tip tip_p50 tip_target in
  let recommended_max_fee := recommended_max_fee base_target recommended_tip in
  let cid := chain_id w3 in
  med_eff <- median_or_zero (effs st) ;;
  Ok {| chainId := cid;
        network := network_name cid;
        head := head;
        sampledBlocks := sampled_blocks st;
        blockWindow := blocks;
        step := step;
        targetPercentile := target_pct;
        timingSec := Fround_nd elapsed 2;
        baseFeeGwei :=
          {| bf_p50 := Fround_nd base_p50 3;
             bf_pTarget := Fround_nd base_target 3;
             bf_min := min_or_zero (base_fees st);
             bf_max := max_or_zero (base_fees st) |};
        medianEffectivePriceGwei :=
          match effs st with [] => Fzero | _ => Fround_nd med_eff 3 end;
        medianTipGwei :=
          {| tip_p50 := Fround_nd tip_p50 3;
             tip_pTarget := Fround_nd tip_target 3 |};
        recommendedForZK :=
          {| maxPriorityFeeGwei := recommended_tip;
             maxFeePerGasGwei := recommended_max_fee |} |}.

Definition analyze_fees (now : Clock) (w3 : Web3) (blocks step : Z)
           (target_pct : F) (head_override : option Z) : result FeeReport :=
  let head := match head_override with
              | Some h => h
              | None => block_number w3
              end in
  let t0 := now 0%nat in
  st <- sample_window w3 head blocks step ;;
  let elapsed := Fsub (now 1%nat) t0 in
  report w3 head blocks step target_pct st elapsed.

End Program.

(** ** What is assumed of floats

    [<] is a strict total order and every rounded operation is monotone,
    as rounding to nearest is.  Binary64 has these properties on its
    finite values: the laws leave NaN and the infinities out, which the
    program cannot meet, its series being made of quotients by 10**9 of
    integers below 2**256 and of their medians. *)

Class FloatLaws (F : Type) {ops : FloatOps F} : Prop := {
  Flt_asym : forall x y : F, Fltb x y = true -> Fltb y x = false;
  Fle_trans : forall x y z : F, Fle x y -> Fle y z -> Fle x z;
  Fzero_lt_one : Fltb Fzero Fone = true;
  Fzero_le_1_2 : Fle Fzero F1_2;
  Fadd_mono : forall a b c d : F, Fle a b -> Fle c d -> Fle (Fadd a c) (Fadd b d);
  Fadd_nonneg : forall a b : F, Fle Fzero a -> Fle Fzero b -> Fle Fzero (Fadd a b);
  Fmul_mono : forall a b c : F, Fle Fzero c -> Fle a b -> Fle (Fmul a c) (Fmul b c);
  Fmul_zero_l : forall n : Z, 0 <= n -> Fmul Fzero (Fof_int n) = Fzero;
  Fmul_one_l : forall x : F, Fmul Fone x = x;
  Fhalve_nonneg : forall x : F, Fle Fzero x -> Fle Fzero (Fhalve x);
  Fof_int_nonneg : forall n : Z, 0 <= n -> Fle Fzero (Fof_int n);
  Fround_mono : forall a b : F, Fle a b -> Fround a <= Fround b;
  Fround_zero : Fround Fzero = 0;
  (* an integer up to 2**53 is a float, and rounds to itself *)
  Fround_of_int : forall n : Z, 0 <= n <= 2 ^ 53 -> Fround (Fof_int n) = n;
  Fround_nd_mono : forall (a b : F) (nd : Z), Fle a b -> Fle (Fround_nd a nd) (Fround_nd b nd);
  Fgwei_zero : Fgwei 0 = Fzero;
  Fgwei_nonneg : forall n : Z, 0 <= n -> Fle Fzero (Fgwei n)
}.

(** ** The extractor as the specification words it *)

Section Reference.

Context {F : Type} {ops : FloatOps F}.

(** The effective price and the tip of one transaction, in wei. *)
Definition ref_effective_price (baseFee : Z) (tx : Tx) : Z :=
  if get0 (tx_type tx) =? 2
  then Z.min (get0 (maxFeePerGas tx)) (baseFee + get0 (maxPriorityFeePerGas tx))
  else get0 (gasPrice tx).

Definition ref_tip (baseFee : Z) (tx : Tx) : Z :=
  if get0 (tx_type tx) =? 2
  then get0 (maxPriorityFeePerGas tx)
  else Z.max 0 (get0 (gasPrice tx) - baseFee).

(** The statistical median: the middle element of the sorted sequence, the
    average of the two middle ones when the length is even, 0.0 when there
    is none. *)
Definition ref_median (xs : list F) : F :=
  let s := sorted xs in
  let n := length s in
  match n with
  | O => Fzero
  | _ =>
    if Nat.odd n then nth (n / 2) s Fzero
    else Fhalve (Fadd (nth (n / 2 - 1) s Fzero) (nth (n / 2) s Fzero))
  end.

Definition reference_stats (block : Block) : BlockFeeStats :=
  let baseFee := get0 (baseFeePerGas block) in
  {| base_fee_gwei := Fgwei baseFee;
     median_effective_gwei :=
       ref_median (map (fun tx => Fgwei (ref_effective_price baseFee tx))
                       (transactions block));
     median_tip_gwei :=
       ref_median (map (fun tx => Fgwei (ref_tip baseFee tx))
                       (transactions block)) |}.

(** The fee fields of the data model: integers of the chain, from 0 to
    2**256 - 1. *)
Definition wei_range (v : Z) : Prop := MIN_WEI <= v <= MAX_WEI.

Definition wei_tx (tx : Tx) : Prop :=
  wei_range (get0 (gasPrice tx)) /\
  wei_range (get0 (maxFeePerGas tx)) /\
  wei_range (get0 (maxPriorityFeePerGas tx)).

Definition wei_block (block : Block) : Prop :=
  wei_range (get0 (baseFeePerGas block)) /\ Forall wei_tx (transactions block).

(** The transaction fee fields are non-negative. *)
Definition nonneg_tx (tx : Tx) : Prop :=
  0 <= get0 (gasPrice tx) /\
  0 <= get0 (maxFeePerGas tx) /\
  0 <= get0 (maxPriorityFeePerGas tx).

End Reference.

(** ** Exact rationals as floats

    An instance of the operations in which nothing is rounded but what the
    program rounds itself. *)

Module QFloat.

Local Open Scope Q_scope.

(** The nearest integer, ties to the even one. *)
Definition round_half_even (x : Q) : Z :=
  let f := Qfloor x in
  match Qcompare (x - inject_Z f) (1 # 2) with
  | Lt => f
  | Gt => (f + 1)%Z
  | Eq => if Z.even f then f else (f + 1)%Z
  end.

(** [round(x, nd)]: the nearest multiple of [10 ** -nd]. *)
Definition round_nd (x : Q) (nd : Z) : Q :=
  let s := Qpower 10 nd in
  Qred (inject_Z (round_half_even (x * s)) / s).

Definition ltb (x y : Q) : bool := negb (Qle_bool y x).

#[global] Instance ops : FloatOps Q := {|
  Fzero := 0;
  Fone := 1;
  F1_2 := 6 # 5;
  Fltb := ltb;
  Fadd := Qplus;
  Fsub := Qminus;
  Fmul := Qmult;
  Fhalve := fun x => x / 2;
  Fof_int := inject_Z;
  Fround := round_half_even;
  Fround_nd := round_nd;
  Fgwei := fun n => Qred (inject_Z n / inject_Z (10 ^ 9))
|}.

End QFloat.

(** ** A small chain to run the program on *)

Module Demo.

Definition gwei_wei (n : Z) : Z := n * 10 ^ 9.

(** A dynamic-fee transaction: cap 100 gwei, tip 10 gwei. *)
Definition tx_dynamic : Tx :=
  {| tx_type := Some 2; gasPrice := None;
     maxFeePerGas := Some (gwei_wei 100);
     maxPriorityFeePerGas := Some (gwei_wei 10) |}.

(** Legacy transactions, one of them with no [type] key. *)
Definition tx_legacy (gas_price : Z) : Tx :=
  {| tx_type := Some 0; gasPrice := Some gas_price;
     maxFeePerGas := None; maxPriorityFeePerGas := None |}.

Definition tx_untyped (gas_price : Z) : Tx :=
  {| tx_type := None; gasPrice := Some gas_price;
     maxFeePerGas := None; maxPriorityFeePerGas := None |}.

Definition block_5 : Block :=
  {| baseFeePerGas := Some (gwei_wei 50);
     transactions := [tx_dynamic; tx_legacy (gwei_wei 52); tx_untyped (gwei_wei 40)] |}.

Definition block_2 : Block :=
  {| baseFeePerGas := Some (gwei_wei 30);
     transactions := [tx_legacy (gwei_wei 30 + 5); tx_dynamic] |}.

(** A block from before the base fee existed, with no transaction. *)
Definition block_0 : Block :=
  {| baseFeePerGas := None; transactions := [] |}.

(** A client that knows the blocks 5, 2 and 0 of the main net. *)
Definition w3 : Web3 :=
  {| chain_id := 1;
     block_number := 5;
     get_block := fun n =>
       if n =? 5 then Ok block_5
       else if n =? 2 then Ok block_2
       else if n =? 0 then Ok block_0
       else Err (BlockNotFound n) |}.

(** The same client, where block 2 cannot be fetched. *)
Definition w3_gap : Web3 :=
  {| chain_id := 1;
     block_number := 5;
     get_block := fun n =>
       if n =? 5 then Ok block_5 else Err (BlockNotFound n) |}.

(** Two clocks: the sampling loop takes 1.5 s on one and 2.25 s on the
    other. *)
Definition clock_a : @Clock Q :=
  fun k => match k with O => 100 # 1 | _ => 203 # 2 end%Q.

Definition clock_b : @Clock Q :=
  fun k => match k with O => 100 # 1 | _ => 409 # 4 end%Q.

(** Series of base fees and tips, as a run could collect them. *)
Definition series : @Series Q :=
  {| base_fees := [30 # 1; 50 # 1; 41 # 1; 38 # 1]%Q;
     effs := [52 # 1; 35 # 1]%Q;
     tips := [2 # 1; 10 # 1; 3 # 1]%Q;
     sampled_blocks := 4 |}.

(** Block 5 again, told otherwise: the keys that are not read hold other
    values and the types other than 2 are other types. *)
Definition block_5_alt : Block :=
  {| baseFeePerGas := Some (gwei_wei 50);
     transactions :=
       [ {| tx_type := Some 2; gasPrice := Some 7;
            maxFeePerGas := Some (gwei_wei 100);
            maxPriorityFeePerGas := Some (gwei_wei 10) |};
         {| tx_type := Some 1; gasPrice := Some (gwei_wei 52);
            maxFeePerGas := Some 1; maxPriorityFeePerGas := Some 2 |};
         {| tx_type := Some 0; gasPrice := Some (gwei_wei 40);
            maxFeePerGas := None; maxPriorityFeePerGas := Some 0 |} ] |}.

(** A client of the same chain with another head, which agrees with [w3]
    on the blocks 5 and 2 only. *)
Definition w3_other : Web3 :=
  {| chain_id := 1;
     block_number := 9;
     get_block := fun n =>
       if n =? 5 then Ok block_5
       else if n =? 2 then Ok block_2
       else Ok block_5_alt |}.

End Demo.

(** ** Notions the statements use *)

Section Notions.

Context {F : Type} {ops : FloatOps F}.

(** [max(0.0, min(1.0, q))], as [pct] computes it. *)
Definition clamp (q : F) : F := py_max2 Fzero (py_min2 Fone q).

(** The index [pct] reads in a sorted list of [n] values. *)
Definition pct_index (n : nat) (q : F) : Z :=
  Fround (Fmul (clamp q) (Fof_int (Z.of_nat n - 1))).

(** The number of heights in the window. *)
Definition window_len (head blocks step : Z) : Z :=
  (head - start_block head blocks) / step + 1.

(** [head_override] when given, the chain head otherwise. *)
Definition head_of (w3 : Web3) (head_override : option Z) : Z :=
  match head_override with
  | Some h => h
  | None => block_number w3
  end.

(** Block [n] was fetched and gave the statistics [s]. *)
Definition sampled_at (w3 : Web3) (n : Z) (s : BlockFeeStats) : Prop :=
  exists blk, get_block w3 n = Ok blk /\ sample_block_fees blk = Ok s.

(** The entries of a series that are [> 0]. *)
Definition positive (xs : list F) : list F := filter (Fltb Fzero) xs.

Definition result_map {A B : Type} (f : A -> B) (m : result A) : result B :=
  match m with
  | Ok a => Ok (f a)
  | Err e => Err e
  end.

(** A report with its [timingSec] replaced. *)
Definition set_timing (t : F) (r : FeeReport) : FeeReport :=
  {| chainId := chainId r;
     network := network r;
     head := head r;
     sampledBlocks := sampledBlocks r;
     blockWindow := blockWindow r;
     step := step r;
     targetPercentile := targetPercentile r;
     timingSec := t;
     baseFeeGwei := baseFeeGwei r;
     medianEffectivePriceGwei := medianEffectivePriceGwei r;
     medianTipGwei := medianTipGwei r;
     recommendedForZK := recommendedForZK r |}.

(** Two transactions in which [sample_block_fees] reads the same: both
    of type 2 with the same cap and tip, or both of another type (or of
    none) with the same [gasPrice]; a missing key reads as 0. *)
Definition reads_alike (tx tx' : Tx) : Prop :=
  if get0 (tx_type tx) =? 2
  then get0 (tx_type tx') = 2 /\
       get0 (maxFeePerGas tx) = get0 (maxFeePerGas tx') /\
       get0 (maxPriorityFeePerGas tx) = get0 (maxPriorityFeePerGas tx')
  else get0 (tx_type tx') <> 2 /\
       get0 (gasPrice tx) = get0 (gasPrice tx').


(** Floats that compare equal. *)
Definition Feqv (x y : F) : Prop := Fle x y /\ Fle y x.

(** The chain ids of [NETWORKS]. *)
Definition known_chain (cid : Z) : Prop :=
  In cid (map fst NETWORKS).

End Notions.

(** * Properties *)

(** ** Lists, indexing and ranges *)

Lemma py_index_nth {A : Type} (xs : list A) (i : nat) (d : A) :
  (i < length xs)%nat -> py_index xs (Z.of_nat i) = Ok (nth i xs d).
Proof.
  intros Hi. unfold py_index.
  destruct (Z.ltb_spec (Z.of_nat i) 0) as [Hneg|_]; [lia|].
  destruct (Z.ltb_spec (Z.of_nat i) 0) as [Hneg|_]; [lia|].
  destruct (Z.leb_spec (Z.of_nat (length xs)) (Z.of_nat i)) as [Hge|_]; [lia|].
  cbn [orb]. rewrite Nat2Z.id.
  rewrite (nth_error_nth' xs d Hi). reflexivity.
Qed.

Lemma py_index_in_range {A : Type} (xs : list A) (i : Z) (d : A) :
  0 <= i < Z.of_nat (length xs) -> py_index xs i = Ok (nth (Z.to_nat i) xs d).
Proof.
  intros Hi. rewrite <- (Z2Nat.id i) at 1 by lia.
  apply py_index_nth. lia.
Qed.

Lemma py_index_ok_inv {A : Type} (xs : list A) (i : Z) (a d : A) :
  0 <= i -> py_index xs i = Ok a ->
  i < Z.of_nat (length xs) /\ a = nth (Z.to_nat i) xs d.
Proof.
  intros Hi. unfold py_index.
  destruct (Z.ltb_spec i 0) as [Hneg|_]; [lia|].
  destruct (Z.ltb_spec i 0) as [Hneg|_]; [lia|].
  destruct (Z.leb_spec (Z.of_nat (length xs)) i) as [Hge|Hlt];
    cbn [orb]; [discriminate|].
  rewrite (nth_error_nth' xs d (n := Z.to_nat i)) by lia.
  intros [= <-]. now split.
Qed.

Lemma for_each_app {A S : Type} (body : S -> A -> result S) (xs ys : list A) (s : S) :
  for_each body (xs ++ ys) s = (s' <- for_each body xs s ;; for_each body ys s').
Proof.
  revert s. induction xs as [|x xs IH]; intros s; cbn; [reflexivity|].
  destruct (body s x); cbn; [apply IH | reflexivity].
Qed.

(** ** Sorting *)

Section Sorting.

Context {F : Type} {ops : FloatOps F}.

Lemma insert_perm (x : F) (xs : list F) : Permutation (insert x xs) (x :: xs).
Proof.
  induction xs as [|y ys IH]; cbn; [reflexivity|].
  destruct (Fltb y x); [|reflexivity].
  rewrite IH. apply perm_swap.
Qed.

Lemma sorted_perm (xs : list F) : Permutation (sorted xs) xs.
Proof.
  induction xs as [|x xs IH]; cbn; [reflexivity|].
  rewrite insert_perm. now constructor.
Qed.

Lemma sorted_length (xs : list F) : length (sorted xs) = length xs.
Proof. apply Permutation_length, sorted_perm. Qed.

Lemma sorted_in (xs : list F) (x : F) : In x (sorted xs) <-> In x xs.
Proof.
  split; apply Permutation_in; [|symmetry]; apply sorted_perm.
Qed.

Context {laws : FloatLaws F}.

Lemma Fle_refl (x : F) : Fle x x.
Proof.
  unfold Fle. destruct (Fltb x x) eqn:E; [|reflexivity].
  now rewrite (Flt_asym _ _ E) in E.
Qed.

Lemma Flt_le (x y : F) : Fltb x y = true -> Fle x y.
Proof. apply Flt_asym. Qed.

Lemma Fle_total (x y : F) : Fle x y \/ Fle y x.
Proof.
  unfold Fle. destruct (Fltb y x) eqn:E; [right|left; reflexivity].
  now apply Flt_asym.
Qed.

Lemma insert_sorted (x : F) (xs : list F) :
  StronglySorted Fle xs -> StronglySorted Fle (insert x xs).
Proof.
  induction 1 as [|y ys Hs IH Hy]; cbn.
  - repeat constructor.
  - destruct (Fltb y x) eqn:E.
    + constructor; [assumption|].
      apply (Permutation_Forall (x := x :: ys)); [symmetry; apply insert_perm|].
      constructor; [now apply Flt_le | assumption].
    + constructor; [now constructor|].
      constructor; [exact E|].
      eapply Forall_impl; [|exact Hy].
      intros z Hz. eapply Fle_trans; [exact E | exact Hz].
Qed.

Lemma sorted_sorted (xs : list F) : StronglySorted Fle (sorted xs).
Proof.
  induction xs as [|x xs IH]; cbn; [constructor | now apply insert_sorted].
Qed.

Lemma StronglySorted_nth (s : list F) (d : F) :
  StronglySorted Fle s ->
  forall i j : nat, (i <= j < length s)%nat -> Fle (nth i s d) (nth j s d).
Proof.
  induction 1 as [|y ys Hs IH Hy]; intros i j Hij; cbn in Hij; [lia|].
  destruct i as [|i], j as [|j]; cbn.
  - apply Fle_refl.
  - rewrite Forall_forall in Hy. apply Hy, nth_In. lia.
  - lia.
  - apply IH. lia.
Qed.

End Sorting.

(** ** The extractor *)

Lemma mod2_odd (n : nat) : Nat.eqb (n mod 2) 1 = Nat.odd n.
Proof.
  rewrite <- Nat.bit0_mod, Nat.bit0_odd. now destruct (Nat.odd n).
Qed.

Section Extractor.

Context {F : Type} {ops : FloatOps F}.

Lemma median_or_zero_ref (xs : list F) : median_or_zero xs = Ok (ref_median xs).
Proof.
  unfold ref_median. destruct xs as [|x l]; [reflexivity|].
  unfold median_or_zero, median.
  set (s := sorted (x :: l)).
  assert (Hn : (0 < length s)%nat)
    by (unfold s; rewrite sorted_length; cbn [length]; lia).
  destruct (length s) as [|n] eqn:En; [lia|]. rewrite <- En.
  replace (Nat.eqb (length s) 0) with false by (rewrite En; reflexivity).
  rewrite mod2_odd.
  assert (Hhalf : (length s / 2 < length s)%nat)
    by (apply Nat.div_lt; lia).
  destruct (Nat.odd (length s)) eqn:Eodd.
  - now apply py_index_nth.
  - assert (Hpos : (1 <= length s / 2)%nat).
    { destruct (length s / 2)%nat eqn:Eh; [|lia].
      apply Nat.div_small_iff in Eh; [|lia].
      assert (E1 : length s = 1%nat) by lia.
      rewrite E1 in Eodd. discriminate. }
    replace (Z.of_nat (length s / 2) - 1) with (Z.of_nat (length s / 2 - 1)) by lia.
    rewrite (py_index_nth s _ Fzero) by lia.
    rewrite (py_index_nth s _ Fzero) by lia.
    reflexivity.
Qed.

Lemma median_or_zero_total (xs : list F) : exists m, median_or_zero xs = Ok m.
Proof. eexists. apply median_or_zero_ref. Qed.

Context {laws : FloatLaws F}.

Lemma from_wei_gwei_range (n : Z) :
  wei_range n -> from_wei_gwei n = Ok (Fgwei n).
Proof.
  unfold wei_range, from_wei_gwei. intros [Hlo Hhi].
  destruct (Z.eqb_spec n 0) as [->|_]; [now rewrite Fgwei_zero|].
  destruct (Z.ltb_spec n MIN_WEI); [lia|].
  destruct (Z.ltb_spec MAX_WEI n); [lia|]. reflexivity.
Qed.

(** Outside the range of wei, the conversion raises. *)
Lemma from_wei_gwei_out_of_range (n : Z) :
  n < 0 \/ MAX_WEI < n -> from_wei_gwei n = Err ValueError.
Proof.
  unfold from_wei_gwei, MIN_WEI. intros H.
  assert (Hmax : 0 < MAX_WEI) by reflexivity.
  destruct (Z.eqb_spec n 0); [lia|].
  destruct (Z.ltb_spec n 0); [reflexivity|].
  destruct (Z.ltb_spec MAX_WEI n); [reflexivity | lia].
Qed.

Lemma wei_range_effective_price (bf : Z) (tx : Tx) :
  wei_range bf -> wei_tx tx -> wei_range (ref_effective_price bf tx).
Proof.
  unfold wei_tx, wei_range, ref_effective_price, MIN_WEI.
  intros Hbf (Hg & Hm & Hp). destruct (_ =? 2); lia.
Qed.

Lemma wei_range_tip (bf : Z) (tx : Tx) :
  wei_range bf -> wei_tx tx -> wei_range (ref_tip bf tx).
Proof.
  unfold wei_tx, wei_range, ref_tip, MIN_WEI.
  intros Hbf (Hg & Hm & Hp). destruct (_ =? 2); lia.
Qed.

Lemma tx_step_ref (bf : Z) (es ts : list F) (tx : Tx) :
  wei_range bf -> wei_tx tx ->
  tx_step bf (es, ts) tx =
  Ok (es ++ [Fgwei (ref_effective_price bf tx)], ts ++ [Fgwei (ref_tip bf tx)]).
Proof.
  intros Hbf Htx.
  pose proof (wei_range_effective_price bf tx Hbf Htx) as He.
  pose proof (wei_range_tip bf tx Hbf Htx) as Ht.
  unfold tx_step, ref_effective_price, ref_tip in *.
  destruct (get0 (tx_type tx) =? 2);
    rewrite (from_wei_gwei_range _ He); cbn [bind];
    rewrite (from_wei_gwei_range _ Ht); reflexivity.
Qed.

Lemma tx_loop_ref (bf : Z) (txs : list Tx) (es ts : list F) :
  wei_range bf -> Forall wei_tx txs ->
  for_each (tx_step bf) txs (es, ts) =
  Ok (es ++ map (fun tx => Fgwei (ref_effective_price bf tx)) txs,
      ts ++ map (fun tx => Fgwei (ref_tip bf tx)) txs).
Proof.
  intros Hbf Htxs. revert es ts.
  induction Htxs as [|tx txs Htx _ IH]; intros es ts; cbn [for_each map].
  - now rewrite !app_nil_r.
  - rewrite (tx_step_ref bf es ts tx Hbf Htx). cbn [bind].
    rewrite IH, <- !app_assoc. reflexivity.
Qed.

(** C1: on every block of the data model (fee fields from 0 to 2**256 - 1)
    [sample_block_fees] returns, without raising, the statistics of the
    reference definition: the base fee in gwei (0 when absent), and the
    medians of the effective prices and of the tips, where a type-2
    transaction gives [min(maxFeePerGas, baseFee + maxPriorityFeePerGas)]
    and [maxPriorityFeePerGas], any other one [gasPrice] and
    [max(0, gasPrice - baseFee)]; a median of no value is 0.0. *)
Theorem sample_block_fees_reference (block : Block) :
  wei_block block -> sample_block_fees block = Ok (reference_stats block).
Proof.
  intros [Hbf Htxs]. unfold sample_block_fees, reference_stats.
  rewrite (from_wei_gwei_range _ Hbf). cbn [bind].
  rewrite (tx_loop_ref _ _ [] [] Hbf Htxs). cbn [bind app].
  rewrite !median_or_zero_ref. reflexivity.
Qed.

(** *** Non-negative statistics *)

Lemma from_wei_gwei_nonneg (n : Z) (v : F) :
  from_wei_gwei n = Ok v -> Fle Fzero v.
Proof.
  unfold from_wei_gwei.
  destruct (Z.eqb_spec n 0) as [->|_].
  - intros [= <-]. apply Fle_refl.
  - destruct (Z.ltb_spec n MIN_WEI) as [|Hlo]; cbn [orb]; [discriminate|].
    destruct (MAX_WEI <? n); [discriminate|].
    intros [= <-]. apply Fgwei_nonneg. exact Hlo.
Qed.

Lemma Forall_snoc {A : Type} (P : A -> Prop) (xs : list A) (x : A) :
  Forall P xs -> P x -> Forall P (xs ++ [x]).
Proof. intros Hxs Hx. apply Forall_app. split; [assumption | now constructor]. Qed.

Lemma tx_step_nonneg (bf : Z) (tx : Tx) (es ts es' ts' : list F) :
  tx_step bf (es, ts) tx = Ok (es', ts') ->
  Forall (Fle Fzero) es -> Forall (Fle Fzero) ts ->
  Forall (Fle Fzero) es' /\ Forall (Fle Fzero) ts'.
Proof.
  unfold tx_step. intros H Hes Hts.
  destruct (get0 (tx_type tx) =? 2).
  - destruct (from_wei_gwei (Z.min _ _)) as [e|] eqn:Ee; [|discriminate].
    destruct (from_wei_gwei (get0 (maxPriorityFeePerGas tx))) as [t|] eqn:Et;
      [|discriminate].
    cbn in H. injection H as <- <-.
    split; apply Forall_snoc; eauto using from_wei_gwei_nonneg.
  - destruct (from_wei_gwei (get0 (gasPrice tx))) as [e|] eqn:Ee; [|discriminate].
    destruct (from_wei_gwei (Z.max _ _)) as [t|] eqn:Et; [|discriminate].
    cbn in H. injection H as <- <-.
    split; apply Forall_snoc; eauto using from_wei_gwei_nonneg.
Qed.

Lemma tx_loop_nonneg (bf : Z) (txs : list Tx) (es ts es' ts' : list F) :
  for_each (tx_step bf) txs (es, ts) = Ok (es', ts') ->
  Forall (Fle Fzero) es -> Forall (Fle Fzero) ts ->
  Forall (Fle Fzero) es' /\ Forall (Fle Fzero) ts'.
Proof.
  revert es ts. induction txs as [|tx txs IH]; intros es ts; cbn [for_each].
  - intros [= <- <-]. now split.
  - destruct (tx_step bf (es, ts) tx) as [[es1 ts1]|] eqn:E; [|discriminate].
    cbn [bind]. intros H Hes Hts.
    destruct (tx_step_nonneg _ _ _ _ _ _ E Hes Hts) as [Hes1 Hts1].
    exact (IH _ _ H Hes1 Hts1).
Qed.

Lemma ref_median_nonneg (xs : list F) :
  Forall (Fle Fzero) xs -> Fle Fzero (ref_median xs).
Proof.
  intros Hxs. unfold ref_median.
  assert (Hs : forall i, (i < length (sorted xs))%nat ->
                         Fle Fzero (nth i (sorted xs) Fzero)).
  { intros i Hi. rewrite Forall_forall in Hxs.
    apply Hxs, sorted_in, nth_In, Hi. }
  destruct (length (sorted xs)) as [|n] eqn:En; [apply Fle_refl|].
  assert (Hhalf : (S n / 2 < S n)%nat) by (apply Nat.div_lt; lia).
  destruct (Nat.odd (S n)).
  - now apply Hs.
  - apply Fhalve_nonneg, Fadd_nonneg; apply Hs; lia.
Qed.

Lemma sample_block_fees_nonneg (block : Block) (s : BlockFeeStats) :
  sample_block_fees block = Ok s ->
  Fle Fzero (base_fee_gwei s) /\
  Fle Fzero (median_effective_gwei s) /\
  Fle Fzero (median_tip_gwei s).
Proof.
  unfold sample_block_fees.
  destruct (from_wei_gwei (get0 (baseFeePerGas block))) as [b|] eqn:Eb;
    [|discriminate].
  cbn [bind].
  destruct (for_each _ _ _) as [[es ts]|] eqn:El; [|discriminate].
  cbn [bind]. rewrite !median_or_zero_ref. cbn [bind]. intros [= <-]. cbn.
  destruct (tx_loop_nonneg _ _ _ _ _ _ El) as [Hes Hts]; [constructor..|].
  repeat split;
    [eapply from_wei_gwei_nonneg; eassumption | now apply ref_median_nonneg..].
Qed.

(** C9: when the fee fields of the transactions of a block are
    non-negative integers, the statistics [sample_block_fees] produces for
    it have [baseFee >= 0], [medianEffectivePrice >= 0] and
    [medianTip >= 0]. *)
Theorem sample_block_fees_invariant (block : Block) (s : BlockFeeStats) :
  Forall nonneg_tx (transactions block) ->
  sample_block_fees block = Ok s ->
  Fle Fzero (base_fee_gwei s) /\
  Fle Fzero (median_effective_gwei s) /\
  Fle Fzero (median_tip_gwei s).
Proof. intros _. apply sample_block_fees_nonneg. Qed.

End Extractor.

(** ** The percentile *)

Section Percentile.

Context {F : Type} {ops : FloatOps F} {laws : FloatLaws F}.

Lemma pct_unfold (x : F) (xs : list F) (q : F) :
  pct (x :: xs) q =
  py_index (sorted (x :: xs)) (pct_index (length (x :: xs)) q).
Proof.
  unfold pct, pct_index, clamp. now rewrite sorted_length.
Qed.

Lemma py_max2_cases (a b : F) :
  Fle a (py_max2 a b) /\ Fle b (py_max2 a b) /\
  (py_max2 a b = a \/ py_max2 a b = b).
Proof.
  unfold py_max2. destruct (Fltb a b) eqn:E.
  - repeat split; [now apply Flt_le | apply Fle_refl | now right].
  - repeat split; [apply Fle_refl | exact E | now left].
Qed.

Lemma py_min2_cases (a b : F) :
  Fle (py_min2 a b) a /\ Fle (py_min2 a b) b /\
  (py_min2 a b = a \/ py_min2 a b = b).
Proof.
  unfold py_min2. destruct (Fltb b a) eqn:E.
  - repeat split; [now apply Flt_le | apply Fle_refl | now right].
  - repeat split; [apply Fle_refl | exact E | now left].
Qed.

Lemma py_max2_mono (a a' b b' : F) :
  Fle a a' -> Fle b b' -> Fle (py_max2 a b) (py_max2 a' b').
Proof.
  intros Ha Hb.
  destruct (py_max2_cases a' b') as (Ha' & Hb' & _).
  destruct (py_max2_cases a b) as (_ & _ & [-> | ->]);
    [apply (Fle_trans _ a') | apply (Fle_trans _ b')]; assumption.
Qed.

Lemma py_min2_mono (a a' b b' : F) :
  Fle a a' -> Fle b b' -> Fle (py_min2 a b) (py_min2 a' b').
Proof.
  intros Ha Hb.
  destruct (py_min2_cases a b) as (Ha0 & Hb0 & _).
  destruct (py_min2_cases a' b') as (_ & _ & [-> | ->]);
    [apply (Fle_trans _ a) | apply (Fle_trans _ b)]; assumption.
Qed.

Lemma clamp_range (q : F) : Fle Fzero (clamp q) /\ Fle (clamp q) Fone.
Proof.
  unfold clamp. split; [apply py_max2_cases|].
  destruct (py_max2_cases Fzero (py_min2 Fone q)) as (_ & _ & [-> | ->]).
  - apply Flt_le, Fzero_lt_one.
  - apply py_min2_cases.
Qed.

Lemma clamp_mono (q1 q2 : F) : Fle q1 q2 -> Fle (clamp q1) (clamp q2).
Proof.
  intros H. apply py_max2_mono; [apply Fle_refl|].
  apply py_min2_mono; [apply Fle_refl | exact H].
Qed.

Lemma clamp_zero : clamp Fzero = Fzero.
Proof.
  unfold clamp, py_min2. rewrite Fzero_lt_one.
  unfold py_max2. now destruct (Fltb Fzero Fzero).
Qed.

Lemma clamp_one : clamp Fone = Fone.
Proof.
  unfold clamp, py_min2.
  replace (if Fltb Fone Fone then Fone else Fone) with Fone
    by now destruct (Fltb Fone Fone).
  unfold py_max2. now rewrite Fzero_lt_one.
Qed.

(** Clamping again changes nothing: [pct] sees the same [q] whether the
    caller clamps or not. *)
Lemma clamp_idem (q : F) : clamp (clamp q) = clamp q.
Proof.
  assert (H : clamp q = Fzero \/ clamp q = Fone \/
              (clamp q = q /\ Fltb q Fone = true /\ Fltb Fzero q = true)).
  { unfold clamp, py_min2, py_max2.
    destruct (Fltb q Fone) eqn:E1.
    - destruct (Fltb Fzero q) eqn:E0; auto.
    - rewrite Fzero_lt_one. auto. }
  destruct H as [H | [H | (H & E1 & E0)]]; rewrite H.
  - apply clamp_zero.
  - apply clamp_one.
  - unfold clamp, py_min2, py_max2. now rewrite E1, E0.
Qed.

Lemma pct_index_nonneg (n : nat) (q : F) : (0 < n)%nat -> 0 <= pct_index n q.
Proof.
  intros Hn. unfold pct_index.
  rewrite <- Fround_zero.
  rewrite <- (Fmul_zero_l (Z.of_nat n - 1)) at 1 by lia.
  apply Fround_mono, Fmul_mono; [apply Fof_int_nonneg; lia | apply clamp_range].
Qed.

Lemma pct_index_upper (n : nat) (q : F) :
  (0 < n)%nat -> Z.of_nat n - 1 <= 2 ^ 53 -> pct_index n q <= Z.of_nat n - 1.
Proof.
  intros Hn Hbig. unfold pct_index.
  rewrite <- (Fround_of_int (Z.of_nat n - 1)) at 2 by lia.
  rewrite <- (Fmul_one_l (Fof_int (Z.of_nat n - 1))) at 2.
  apply Fround_mono, Fmul_mono; [apply Fof_int_nonneg; lia | apply clamp_range].
Qed.

Lemma pct_index_mono (n : nat) (q1 q2 : F) :
  (0 < n)%nat -> Fle q1 q2 -> pct_index n q1 <= pct_index n q2.
Proof.
  intros Hn H. unfold pct_index.
  apply Fround_mono, Fmul_mono; [apply Fof_int_nonneg; lia | now apply clamp_mono].
Qed.

Lemma pct_index_zero (n : nat) : (0 < n)%nat -> pct_index n Fzero = 0.
Proof.
  intros Hn. unfold pct_index.
  rewrite clamp_zero, Fmul_zero_l by lia. apply Fround_zero.
Qed.

Lemma pct_index_one (n : nat) :
  (0 < n)%nat -> Z.of_nat n - 1 <= 2 ^ 53 -> pct_index n Fone = Z.of_nat n - 1.
Proof.
  intros Hn Hbig. unfold pct_index.
  rewrite clamp_one, Fmul_one_l. apply Fround_of_int. lia.
Qed.

(** [pct] does not raise on a list a machine can hold. *)
Lemma pct_nth (values : list F) (q : F) :
  values <> [] -> Z.of_nat (length values) - 1 <= 2 ^ 53 ->
  pct values q =
  Ok (nth (Z.to_nat (pct_index (length values) q)) (sorted values) Fzero).
Proof.
  intros Hne Hbig. destruct values as [|x xs]; [easy|].
  rewrite pct_unfold. apply py_index_in_range.
  rewrite sorted_length.
  pose proof (pct_index_nonneg (length (x :: xs)) q ltac:(cbn; lia)).
  pose proof (pct_index_upper (length (x :: xs)) q ltac:(cbn; lia) Hbig).
  lia.
Qed.

Lemma pct_empty (q : F) : pct [] q = Ok Fzero.
Proof. reflexivity. Qed.

(** [pct] is monotone in [q]. *)
Lemma pct_mono (values : list F) (q1 q2 a b : F) :
  Fle q1 q2 -> pct values q1 = Ok a -> pct values q2 = Ok b -> Fle a b.
Proof.
  intros Hq. destruct values as [|x xs].
  - intros [= <-] [= <-]. apply Fle_refl.
  - rewrite !pct_unfold. set (s := sorted (x :: xs)).
    set (n := length (x :: xs)).
    assert (Hn : (0 < n)%nat) by (unfold n; cbn; lia).
    pose proof (pct_index_nonneg n q1 Hn) as H1.
    pose proof (pct_index_mono n q1 q2 Hn Hq) as H12.
    intros Ha Hb.
    destruct (py_index_ok_inv s _ a Fzero H1 Ha) as [Hlt1 ->].
    assert (H2 : 0 <= pct_index n q2) by lia.
    destruct (py_index_ok_inv s _ b Fzero H2 Hb) as [Hlt2 ->].
    apply StronglySorted_nth; [apply sorted_sorted | lia].
Qed.

(** C3: [pct([], q)] is 0.0; on a non-empty series (of at most 2**53 + 1
    values, so that its last index is a float) [pct] clamps [q] to
    [0.0, 1.0], sorts the series in ascending order and returns the
    element at index [round(q * (n - 1))], which is in range; for
    [q = 0.0] that element is the minimum of the series and for [q = 1.0]
    its maximum. *)
Theorem pct_nearest_rank (values : list F) (q : F) :
  values <> [] -> Z.of_nat (length values) - 1 <= 2 ^ 53 ->
  let q' := py_max2 Fzero (py_min2 Fone q) in
  let s := sorted values in
  let idx := Fround (Fmul q' (Fof_int (Z.of_nat (length values) - 1))) in
  (forall q0, pct [] q0 = Ok Fzero) /\
  (Fle Fzero q' /\ Fle q' Fone) /\
  (Permutation s values /\ StronglySorted Fle s) /\
  0 <= idx < Z.of_nat (length values) /\
  pct values q = Ok (nth (Z.to_nat idx) s Fzero) /\
  (exists m, pct values Fzero = Ok m /\ In m values /\
             forall v, In v values -> Fle m v) /\
  (exists M, pct values Fone = Ok M /\ In M values /\
             forall v, In v values -> Fle v M).
Proof.
  intros Hne Hbig q' s idx. subst s.
  assert (Hn : (0 < length values)%nat)
    by (destruct values; [easy | cbn; lia]).
  assert (Hs : StronglySorted Fle (sorted values)) by apply sorted_sorted.
  assert (Hlen : length (sorted values) = length values) by apply sorted_length.
  split; [intros q0; apply pct_empty|].
  split; [apply (clamp_range q)|].
  split; [split; [apply sorted_perm | exact Hs]|].
  split.
  { pose proof (pct_index_nonneg (length values) q Hn).
    pose proof (pct_index_upper (length values) q Hn Hbig).
    change (0 <= pct_index (length values) q < Z.of_nat (length values)).
    lia. }
  split; [now apply pct_nth|].
  split.
  - exists (nth 0 (sorted values) Fzero). rewrite (pct_nth _ _ Hne Hbig).
    rewrite pct_index_zero by exact Hn.
    split; [reflexivity|].
    split; [apply sorted_in, nth_In; lia|].
    intros v Hv. apply sorted_in in Hv.
    destruct (In_nth _ _ Fzero Hv) as (i & Hi & <-).
    apply StronglySorted_nth; [exact Hs | lia].
  - exists (nth (length values - 1) (sorted values) Fzero). rewrite (pct_nth _ _ Hne Hbig).
    rewrite pct_index_one by assumption.
    replace (Z.to_nat (Z.of_nat (length values) - 1))
      with (length values - 1)%nat by lia.
    split; [reflexivity|].
    split; [apply sorted_in, nth_In; lia|].
    intros v Hv. apply sorted_in in Hv.
    destruct (In_nth _ _ Fzero Hv) as (i & Hi & <-).
    apply StronglySorted_nth; [exact Hs | lia].
Qed.

End Percentile.

(** ** The sampling range *)

Lemma py_range_down (start stop step : Z) :
  0 < step -> stop < start ->
  py_range start stop (- step) =
  Ok (map (fun i => start - Z.of_nat i * step)
          (seq 0 (Z.to_nat ((start - stop - 1) / step + 1)))).
Proof.
  intros Hstep Hlt. unfold py_range, py_range_len.
  destruct (Z.eqb_spec (- step) 0); [lia|].
  destruct (Z.ltb_spec 0 (- step)); [lia|].
  destruct (Z.ltb_spec stop start); [|lia].
  rewrite Z.opp_involutive. f_equal. apply map_ext. intros i. lia.
Qed.

Lemma py_range_down_empty (start stop step : Z) :
  0 < step -> start <= stop -> py_range start stop (- step) = Ok [].
Proof.
  intros Hstep Hle. unfold py_range, py_range_len.
  destruct (Z.eqb_spec (- step) 0); [lia|].
  destruct (Z.ltb_spec 0 (- step)); [lia|].
  destruct (Z.ltb_spec stop start); [lia|]. reflexivity.
Qed.

Lemma start_block_range (head blocks : Z) :
  0 <= head -> 0 < blocks ->
  0 <= start_block head blocks <= head /\ head - blocks < start_block head blocks.
Proof. unfold start_block. lia. Qed.

Lemma window_len_bounds (head blocks step : Z) :
  0 <= head -> 0 < blocks -> 0 < step ->
  let len := window_len head blocks step in
  0 < len <= blocks /\
  start_block head blocks <= head - (len - 1) * step /\
  head - len * step < start_block head blocks.
Proof.
  intros Hh Hb Hs. unfold window_len.
  pose proof (start_block_range head blocks Hh Hb) as [Hfloor Hwin].
  set (d := head - start_block head blocks) in *.
  assert (Hd : 0 <= d) by (unfold d; lia).
  pose proof (Z.div_pos d step Hd Hs) as Hq.
  pose proof (Z.mul_div_le d step Hs) as Hlow.
  pose proof (Z.mul_succ_div_gt d step Hs) as Hup.
  assert (Hqd : d / step <= d) by nia.
  cbv zeta. unfold d in *. repeat split; nia.
Qed.

Lemma sample_heights_window (head blocks step : Z) :
  0 <= head -> 0 < blocks -> 0 < step ->
  sample_heights head blocks step =
  Ok (map (fun k => head - Z.of_nat k * step)
          (seq 0 (Z.to_nat (window_len head blocks step)))).
Proof.
  intros Hh Hb Hs. unfold sample_heights, window_len.
  pose proof (start_block_range head blocks Hh Hb) as [Hfloor _].
  rewrite py_range_down by lia.
  replace (head - (start_block head blocks - 1) - 1)
    with (head - start_block head blocks) by lia.
  reflexivity.
Qed.

Lemma sample_heights_length (head blocks step : Z) (hs : list Z) :
  0 < blocks -> 0 < step ->
  sample_heights head blocks step = Ok hs -> Z.of_nat (length hs) <= blocks.
Proof.
  intros Hb Hs. destruct (Z.le_gt_cases 0 head) as [Hh|Hh].
  - rewrite sample_heights_window by assumption. intros [= <-].
    rewrite length_map, length_seq.
    pose proof (window_len_bounds head blocks step Hh Hb Hs). cbv zeta in *. lia.
  - unfold sample_heights. rewrite py_range_down_empty.
    + intros [= <-]. cbn. lia.
    + exact Hs.
    + unfold start_block. lia.
Qed.

(** ** The aggregator *)

Section Aggregator.

Context {F : Type} {ops : FloatOps F}.

Lemma for_each_ext {A S : Type} (f g : S -> A -> result S) (xs : list A) (s : S) :
  (forall x, In x xs -> forall s', f s' x = g s' x) ->
  for_each f xs s = for_each g xs s.
Proof.
  revert s. induction xs as [|x xs IH]; intros s H; cbn; [reflexivity|].
  rewrite (H x) by now left.
  destruct (g s x); cbn; [|reflexivity].
  apply IH. intros y Hy. apply H. now right.
Qed.

Lemma for_each_raises {A S : Type} (body : S -> A -> result S) (xs : list A) (x : A) :
  In x xs -> (forall s, exists e, body s x = Err e) ->
  forall s, exists e, for_each body xs s = Err e.
Proof.
  intros Hin Hx. induction xs as [|y ys IH]; [easy|]. intros s. cbn.
  destruct Hin as [->|Hin].
  - destruct (Hx s) as [e ->]. now exists e.
  - destruct (body s y) as [s'|e]; cbn; [now apply IH | now exists e].
Qed.

Lemma sample_step_inv (w3 : Web3) (st st' : Series) (n : Z) :
  sample_step w3 st n = Ok st' ->
  exists s, sampled_at w3 n s /\
    base_fees st' = base_fees st ++ [base_fee_gwei s] /\
    effs st' = effs st ++ positive [median_effective_gwei s] /\
    tips st' = tips st ++ positive [median_tip_gwei s] /\
    sampled_blocks st' = sampled_blocks st + 1.
Proof.
  unfold sample_step, sampled_at, positive.
  destruct (get_block w3 n) as [blk|] eqn:Eb; [|discriminate]. cbn [bind].
  destruct (sample_block_fees blk) as [s|] eqn:Es; [|discriminate]. cbn [bind].
  intros [= <-]. exists s. cbn [base_fees effs tips sampled_blocks filter].
  split; [now exists blk|].
  repeat split.
  - destruct (Fltb Fzero (median_effective_gwei s)); [reflexivity | now rewrite app_nil_r].
  - destruct (Fltb Fzero (median_tip_gwei s)); [reflexivity | now rewrite app_nil_r].
Qed.

Lemma positive_app (xs ys : list F) : positive (xs ++ ys) = positive xs ++ positive ys.
Proof. apply filter_app. Qed.

Lemma sample_loop_inv (w3 : Web3) (hs : list Z) (st0 st : Series) :
  for_each (sample_step w3) hs st0 = Ok st ->
  exists stats, Forall2 (sampled_at w3) hs stats /\
    base_fees st = base_fees st0 ++ map base_fee_gwei stats /\
    effs st = effs st0 ++ positive (map median_effective_gwei stats) /\
    tips st = tips st0 ++ positive (map median_tip_gwei stats) /\
    sampled_blocks st = sampled_blocks st0 + Z.of_nat (length hs).
Proof.
  revert st0. induction hs as [|n hs IH]; intros st0; cbn [for_each].
  - intros [= <-]. exists []. cbn. rewrite !app_nil_r. repeat split; [constructor | lia].
  - destruct (sample_step w3 st0 n) as [st1|] eqn:E1; [|discriminate]. cbn [bind].
    intros H. destruct (IH _ H) as (stats & Hall & Hb & He & Ht & Hc).
    destruct (sample_step_inv _ _ _ _ E1) as (s & Hs & Hb1 & He1 & Ht1 & Hc1).
    exists (s :: stats). split; [now constructor|].
    rewrite Hb, He, Ht, Hc, Hb1, He1, Ht1, Hc1.
    change (map ?f (s :: stats)) with ([f s] ++ map f stats).
    rewrite !positive_app, <- !app_assoc. cbn [length].
    repeat split. lia.
Qed.

Lemma sample_window_inv (w3 : Web3) (head blocks step : Z) (st : Series) :
  sample_window w3 head blocks step = Ok st ->
  exists hs stats,
    sample_heights head blocks step = Ok hs /\
    Forall2 (sampled_at w3) hs stats /\
    base_fees st = map base_fee_gwei stats /\
    effs st = positive (map median_effective_gwei stats) /\
    tips st = positive (map median_tip_gwei stats) /\
    sampled_blocks st = Z.of_nat (length hs).
Proof.
  unfold sample_window.
  destruct (sample_heights head blocks step) as [hs|]; [|discriminate].
  cbn [bind]. intros H.
  destruct (sample_loop_inv _ _ _ _ H) as (stats & Hall & Hb & He & Ht & Hc).
  exists hs, stats. cbn in *. repeat split; assumption.
Qed.

Lemma pct_or_zero_pct (xs : list F) (q : F) : pct_or_zero xs q = pct xs q.
Proof. now destruct xs. Qed.

Lemma analyze_fees_inv (now : Clock) (w3 : Web3) (blocks step : Z) (q : F)
      (head_override : option Z) (r : FeeReport) :
  analyze_fees now w3 blocks step q head_override = Ok r ->
  exists st,
    sample_window w3 (head_of w3 head_override) blocks step = Ok st /\
    report w3 (head_of w3 head_override) blocks step q st
           (Fsub (now 1%nat) (now 0%nat)) = Ok r.
Proof.
  unfold analyze_fees. fold (head_of w3 head_override).
  destruct (sample_window _ _ _ _) as [st|]; [|discriminate].
  cbn [bind]. intros H. now exists st.
Qed.

Lemma report_inv (w3 : Web3) (head blocks step : Z) (q : F) (st : Series)
      (elapsed : F) (r : FeeReport) :
  report w3 head blocks step q st elapsed = Ok r ->
  exists base_target tip_target,
    pct (base_fees st) q = Ok base_target /\
    pct (tips st) q = Ok tip_target /\
    sampledBlocks r = sampled_blocks st /\
    targetPercentile r = q /\
    timingSec r = Fround_nd elapsed 2 /\
    maxPriorityFeeGwei (recommendedForZK r) =
      recommended_tip (ref_median (tips st)) tip_target /\
    maxFeePerGasGwei (recommendedForZK r) =
      recommended_max_fee base_target
        (recommended_tip (ref_median (tips st)) tip_target).
Proof.
  unfold report. rewrite !median_or_zero_ref, !pct_or_zero_pct. cbn [bind].
  destruct (pct (base_fees st) q) as [bt|]; [|discriminate]. cbn [bind].
  destruct (pct (tips st) q) as [tt|]; [|discriminate]. cbn [bind].
  intros [= <-]. exists bt, tt. cbn. repeat split.
Qed.

Lemma report_timing (w3 : Web3) (head blocks step : Z) (q : F) (st : Series)
      (elapsed t : F) :
  result_map (set_timing t) (report w3 head blocks step q st elapsed) =
  result_map (set_timing t) (report w3 head blocks step q st t).
Proof.
  unfold report. rewrite !median_or_zero_ref, !pct_or_zero_pct. cbn [bind].
  destruct (pct (base_fees st) q) as [bt|]; [|reflexivity]. cbn [bind].
  destruct (pct (tips st) q) as [tt|]; reflexivity.
Qed.

(** C2: in the report of every run, [maxPriorityFeeGwei] is
    [round(max(tip_p50, tip_target) * 1.2, 3)] and [maxFeePerGasGwei] is
    [round(base_target + maxPriorityFeeGwei, 3)], where [tip_p50] is the
    median of the collected tips (0.0 when there is none),
    [tip_target = pct(tips, target_pct)] and
    [base_target = pct(base_fees, target_pct)]. *)
Theorem analyze_fees_recommendation (now : Clock) (w3 : Web3) (blocks step : Z)
        (target_pct : F) (head_override : option Z) (r : FeeReport) :
  analyze_fees now w3 blocks step target_pct head_override = Ok r ->
  exists st tip_target base_target,
    sample_window w3 (head_of w3 head_override) blocks step = Ok st /\
    pct (tips st) target_pct = Ok tip_target /\
    pct (base_fees st) target_pct = Ok base_target /\
    let tip_p50 := ref_median (tips st) in
    maxPriorityFeeGwei (recommendedForZK r) =
      Fround_nd (Fmul (py_max2 tip_p50 tip_target) F1_2) 3 /\
    maxFeePerGasGwei (recommendedForZK r) =
      Fround_nd (Fadd base_target (maxPriorityFeeGwei (recommendedForZK r))) 3.
Proof.
  intros H. destruct (analyze_fees_inv _ _ _ _ _ _ _ H) as (st & Hw & Hr).
  destruct (report_inv _ _ _ _ _ _ _ _ Hr)
    as (bt & tt & Hbt & Htt & _ & _ & _ & Htip & Hmax).
  exists st, tt, bt. cbv zeta. rewrite Hmax, Htip. repeat split; assumption.
Qed.

(** C5: the series of a run hold, in sampling order, the [baseFee] of
    every sampled block, the [medianEffectivePrice] of the sampled blocks
    where it is [> 0] and the [medianTip] of those where it is [> 0]. *)
Theorem sample_window_series (w3 : Web3) (head blocks step : Z) (st : Series) :
  sample_window w3 head blocks step = Ok st ->
  exists hs stats,
    sample_heights head blocks step = Ok hs /\
    Forall2 (sampled_at w3) hs stats /\
    base_fees st = map base_fee_gwei stats /\
    effs st = filter (Fltb Fzero) (map median_effective_gwei stats) /\
    tips st = filter (Fltb Fzero) (map median_tip_gwei stats).
Proof.
  intros H.
  destruct (sample_window_inv _ _ _ _ _ H) as (hs & stats & Hh & Hall & Hb & He & Ht & _).
  now exists hs, stats.
Qed.

(** C6: when the chain client raises for one of the sampled heights,
    [analyze_fees] raises and returns no report. *)
Theorem analyze_fees_fetch_failure (now : Clock) (w3 : Web3) (blocks step : Z)
        (target_pct : F) (head_override : option Z) (hs : list Z) (n : Z) (e : exn) :
  sample_heights (head_of w3 head_override) blocks step = Ok hs ->
  In n hs ->
  get_block w3 n = Err e ->
  exists e', analyze_fees now w3 blocks step target_pct head_override = Err e'.
Proof.
  intros Hhs Hin Hfail. unfold analyze_fees. fold (head_of w3 head_override).
  unfold sample_window. rewrite Hhs. cbn [bind].
  destruct (for_each_raises (sample_step w3) hs n Hin) with (s := @no_series F)
    as [e' ->].
  - intros s. exists e. unfold sample_step. now rewrite Hfail.
  - now exists e'.
Qed.

End Aggregator.

Section Window.

Context {F : Type} {ops : FloatOps F}.

Lemma sampled_blocks_heights (now : Clock) (w3 : Web3) (blocks step : Z) (q : F)
      (head_override : option Z) (r : FeeReport) (hs : list Z) :
  analyze_fees now w3 blocks step q head_override = Ok r ->
  sample_heights (head_of w3 head_override) blocks step = Ok hs ->
  sampledBlocks r = Z.of_nat (length hs) /\
  forall h, In h hs -> exists blk, get_block w3 h = Ok blk.
Proof.
  intros H Hhs. destruct (analyze_fees_inv _ _ _ _ _ _ _ H) as (st & Hw & Hr).
  destruct (report_inv _ _ _ _ _ _ _ _ Hr) as (_ & _ & _ & _ & Hsb & _).
  destruct (sample_window_inv _ _ _ _ _ Hw)
    as (hs' & stats & Hhs' & Hall & _ & _ & _ & Hc).
  rewrite Hhs in Hhs'. injection Hhs' as <-.
  split; [now rewrite Hsb|].
  intros h Hh. clear - Hall Hh.
  induction Hall as [|n s hs stats (blk & Hblk & _) _ IH]; [easy|].
  destruct Hh as [<-|Hh]; [now exists blk | now apply IH].
Qed.

(** C4: for [head >= 0], [blocks > 0] and [step > 0] the loop visits
    [head, head - step, head - 2*step, ...], in this order, down to the
    last of them that is not below [max(0, head - blocks + 1)]: the next
    one would be below it.  Every one of them is fetched in a run that
    returns, and [sampledBlocks] is their number.  With [blocks = 1000],
    [head = 5] and [step = 3] the heights are 5 and 2 and [sampledBlocks]
    is 2. *)
Theorem sample_heights_window_floor :
  (forall head blocks step : Z,
     0 <= head -> 0 < blocks -> 0 < step ->
     exists hs,
       sample_heights head blocks step = Ok hs /\
       hs = map (fun k => head - Z.of_nat k * step) (seq 0 (length hs)) /\
       (forall h, In h hs <->
                  (exists k, 0 <= k /\ h = head - k * step) /\
                  Z.max 0 (head - blocks + 1) <= h) /\
       head - Z.of_nat (length hs) * step < Z.max 0 (head - blocks + 1) /\
       (forall (now : Clock) w3 (q : F) r,
          analyze_fees now w3 blocks step q (Some head) = Ok r ->
          sampledBlocks r = Z.of_nat (length hs) /\
          forall h, In h hs -> exists blk, get_block w3 h = Ok blk)) /\
  sample_heights 5 1000 3 = Ok [5; 2] /\
  (forall (now : Clock) w3 (q : F) r,
     analyze_fees now w3 1000 3 q (Some 5) = Ok r -> sampledBlocks r = 2).
Proof.
  split; [|split].
  - intros head blocks step Hh Hb Hs.
    pose proof (window_len_bounds head blocks step Hh Hb Hs) as Hlen.
    cbv zeta in Hlen. destruct Hlen as (Hlen & Hlast & Hnext).
    fold (start_block head blocks).
    eexists. split; [now apply sample_heights_window|].
    rewrite length_map, length_seq.
    split; [reflexivity|]. split; [|split].
    + intros h. rewrite in_map_iff. split.
      * intros (k & <- & Hk). apply in_seq in Hk. split.
        -- exists (Z.of_nat k). split; [lia | reflexivity].
        -- nia.
      * intros ((k & Hk & ->) & Hfloor).
        exists (Z.to_nat k). split; [f_equal; lia|].
        apply in_seq. nia.
    + rewrite Z2Nat.id by lia. exact Hnext.
    + intros now w3 q r Hr.
      pose proof (sampled_blocks_heights now w3 blocks step q (Some head) r _ Hr
                    (sample_heights_window head blocks step Hh Hb Hs)) as [Hc Hf].
      rewrite length_map, length_seq in Hc. split; assumption.
  - reflexivity.
  - intros now w3 q r Hr.
    now destruct (sampled_blocks_heights now w3 1000 3 q (Some 5) r [5; 2] Hr eq_refl).
Qed.

Lemma sample_window_ext (w3 w3' : Web3) (head blocks step : Z) :
  (forall n, get_block w3 n = get_block w3' n) ->
  @sample_window F ops w3 head blocks step = sample_window w3' head blocks step.
Proof.
  intros Hblk. unfold sample_window.
  destruct (sample_heights head blocks step) as [hs|]; [|reflexivity].
  cbn [bind]. apply for_each_ext. intros n _ st.
  unfold sample_step. now rewrite Hblk.
Qed.

(** C7, as the code has it: two runs with the same parameters on chain
    clients that answer alike return the same error or two reports that
    agree on every field but [timingSec]; [timingSec] is the difference of
    the two readings of the clock around the sampling loop, rounded to 2
    digits. *)
Theorem analyze_fees_up_to_timing (now1 now2 : Clock) (w3 w3' : Web3)
        (blocks step : Z) (q : F) (head_override : option Z) :
  chain_id w3 = chain_id w3' ->
  block_number w3 = block_number w3' ->
  (forall n, get_block w3 n = get_block w3' n) ->
  (forall t,
     result_map (set_timing t) (analyze_fees now1 w3 blocks step q head_override) =
     result_map (set_timing t) (analyze_fees now2 w3' blocks step q head_override)) /\
  (forall r, analyze_fees now1 w3 blocks step q head_override = Ok r ->
             timingSec r = Fround_nd (Fsub (now1 1%nat) (now1 0%nat)) 2).
Proof.
  intros Hcid Hnum Hblk. split.
  - intros t. unfold analyze_fees. rewrite <- Hnum.
    rewrite <- (sample_window_ext w3 w3') by exact Hblk.
    destruct (sample_window _ _ _ _) as [st|]; [|reflexivity]. cbn [bind].
    rewrite report_timing. symmetry. rewrite report_timing.
    unfold report. now rewrite Hcid.
  - intros r Hr. destruct (analyze_fees_inv _ _ _ _ _ _ _ Hr) as (st & _ & Hrep).
    now destruct (report_inv _ _ _ _ _ _ _ _ Hrep) as (_ & _ & _ & _ & _ & _ & Ht & _).
Qed.

Context {laws : FloatLaws F}.

Lemma pct_total (values : list F) (q : F) :
  Z.of_nat (length values) - 1 <= 2 ^ 53 -> exists v, pct values q = Ok v.
Proof.
  intros Hbig. destruct values as [|x xs]; [now exists Fzero|].
  eexists. now apply pct_nth.
Qed.

Lemma report_total (w3 : Web3) (head blocks step : Z) (q : F) (st : Series)
      (elapsed : F) :
  Z.of_nat (length (base_fees st)) - 1 <= 2 ^ 53 ->
  Z.of_nat (length (tips st)) - 1 <= 2 ^ 53 ->
  exists r, report w3 head blocks step q st elapsed = Ok r.
Proof.
  intros Hb Ht. unfold report.
  rewrite !median_or_zero_ref, !pct_or_zero_pct. cbn [bind].
  destruct (pct_total (base_fees st) q Hb) as [bt ->]. cbn [bind].
  destruct (pct_total (tips st) q Ht) as [tt ->]. cbn [bind].
  eexists. reflexivity.
Qed.

Lemma recommended_tip_mono (p50 t1 t2 : F) :
  Fle t1 t2 -> Fle (recommended_tip p50 t1) (recommended_tip p50 t2).
Proof.
  intros H. unfold recommended_tip.
  apply Fround_nd_mono, Fmul_mono; [apply Fzero_le_1_2|].
  apply py_max2_mono; [apply Fle_refl | exact H].
Qed.

Lemma recommended_max_fee_mono (b1 b2 t1 t2 : F) :
  Fle b1 b2 -> Fle t1 t2 ->
  Fle (recommended_max_fee b1 t1) (recommended_max_fee b2 t2).
Proof.
  intros Hb Ht. unfold recommended_max_fee.
  now apply Fround_nd_mono, Fadd_mono.
Qed.

(** C8: on fixed series, a larger target percentile never gives a smaller
    [maxFeePerGasGwei]: the reports for [q1 <= q2], in particular for 0.5
    and 0.95, have [maxFeePerGasGwei] in the same order. *)
Theorem recommended_max_fee_monotone (w3 : Web3) (head blocks step : Z)
        (st : Series) (elapsed q1 q2 : F) (r1 r2 : FeeReport) :
  Fle q1 q2 ->
  report w3 head blocks step q1 st elapsed = Ok r1 ->
  report w3 head blocks step q2 st elapsed = Ok r2 ->
  Fle (maxFeePerGasGwei (recommendedForZK r1))
      (maxFeePerGasGwei (recommendedForZK r2)).
Proof.
  intros Hq H1 H2.
  destruct (report_inv _ _ _ _ _ _ _ _ H1)
    as (b1 & t1 & Hb1 & Ht1 & _ & _ & _ & _ & ->).
  destruct (report_inv _ _ _ _ _ _ _ _ H2)
    as (b2 & t2 & Hb2 & Ht2 & _ & _ & _ & _ & ->).
  apply recommended_max_fee_mono.
  - exact (pct_mono _ _ _ _ _ Hq Hb1 Hb2).
  - apply recommended_tip_mono. exact (pct_mono _ _ _ _ _ Hq Ht1 Ht2).
Qed.

(** C10: whatever [target_pct] is, inside [0.0, 1.0] or not, a run whose
    sampling succeeds returns a report, the report holds [target_pct] as
    it was given, and [pct] computes with the clamped value. *)
Theorem target_percentile_not_rejected (now : Clock) (w3 : Web3) (blocks step : Z)
        (target_pct : F) (head_override : option Z) :
  0 < blocks <= 2 ^ 53 -> 0 < step ->
  (forall st, sample_window w3 (head_of w3 head_override) blocks step = Ok st ->
              exists r, analyze_fees now w3 blocks step target_pct head_override = Ok r) /\
  (forall r, analyze_fees now w3 blocks step target_pct head_override = Ok r ->
             targetPercentile r = target_pct) /\
  (forall values,
     pct values target_pct = pct values (py_max2 Fzero (py_min2 Fone target_pct))).
Proof.
  intros Hb Hs. split; [|split].
  - intros st Hw. unfold analyze_fees. fold (head_of w3 head_override).
    rewrite Hw. cbn [bind].
    destruct (sample_window_inv _ _ _ _ _ Hw)
      as (hs & stats & Hhs & Hall & Hbf & _ & Htips & _).
    assert (Hpos : 0 < blocks) by lia.
    pose proof (sample_heights_length _ _ _ _ Hpos Hs Hhs) as Hlen.
    pose proof (Forall2_length Hall) as Hlen2.
    apply report_total.
    + rewrite Hbf, length_map. lia.
    + rewrite Htips. unfold positive.
      pose proof (filter_length_le (Fltb Fzero) (map median_tip_gwei stats)) as Hf.
      rewrite length_map in Hf. lia.
  - intros r Hr. destruct (analyze_fees_inv _ _ _ _ _ _ _ Hr) as (st & _ & Hrep).
    now destruct (report_inv _ _ _ _ _ _ _ _ Hrep) as (_ & _ & _ & _ & _ & Hq & _).
  - intros values. unfold pct. fold (clamp target_pct).
    fold (clamp (clamp target_pct)). now rewrite clamp_idem.
Qed.

End Window.

(** ** Exact rationals satisfy the laws *)

Module QFloatLaws.

Import QFloat.
Local Open Scope Q_scope.

Lemma Fle_Qle (x y : Q) : Fle x y <-> x <= y.
Proof.
  unfold Fle. cbn. unfold ltb.
  rewrite negb_false_iff. apply Qle_bool_iff.
Qed.

Lemma ltb_Qlt (x y : Q) : ltb x y = true <-> x < y.
Proof.
  unfold ltb. rewrite negb_true_iff, <- not_true_iff_false, Qle_bool_iff.
  split; [apply Qnot_le_lt | apply Qlt_not_le].
Qed.

Lemma round_half_even_cases (x : Q) :
  (round_half_even x = Qfloor x /\ x - inject_Z (Qfloor x) <= 1 # 2) \/
  (round_half_even x = (Qfloor x + 1)%Z /\ 1 # 2 <= x - inject_Z (Qfloor x)).
Proof.
  unfold round_half_even.
  destruct (Qcompare_spec (x - inject_Z (Qfloor x)) (1 # 2)) as [He|Hl|Hg].
  - destruct (Z.even (Qfloor x)); [left | right]; split; try reflexivity;
      rewrite He; apply Qle_refl.
  - left. split; [reflexivity | now apply Qlt_le_weak].
  - right. split; [reflexivity | now apply Qlt_le_weak].
Qed.

Lemma round_half_even_mono (x y : Q) :
  x <= y -> (round_half_even x <= round_half_even y)%Z.
Proof.
  intros Hxy. pose proof (Qfloor_resp_le x y Hxy) as Hfl.
  destruct (Z.eq_dec (Qfloor x) (Qfloor y)) as [Heq|Hne].
  - unfold round_half_even. rewrite <- Heq.
    destruct (Qcompare_spec (x - inject_Z (Qfloor x)) (1 # 2)) as [He|Hl|Hg];
      destruct (Qcompare_spec (y - inject_Z (Qfloor x)) (1 # 2)) as [He'|Hl'|Hg'];
      try (destruct (Z.even (Qfloor x))); try lia; exfalso; lra.
  - destruct (round_half_even_cases x) as [[-> _]|[-> _]];
      destruct (round_half_even_cases y) as [[-> _]|[-> _]]; lia.
Qed.

Lemma round_half_even_Z (n : Z) : round_half_even (inject_Z n) = n.
Proof.
  unfold round_half_even. rewrite Qfloor_Z.
  destruct (Qcompare_spec (inject_Z n - inject_Z n) (1 # 2)) as [He|Hl|Hg];
    [exfalso; lra | reflexivity | exfalso; lra].
Qed.

Lemma ten_power_pos (nd : Z) : 0 < 10 ^ nd.
Proof. apply Qpower_0_lt. reflexivity. Qed.

Lemma round_nd_mono (a b : Q) (nd : Z) : a <= b -> round_nd a nd <= round_nd b nd.
Proof.
  intros Hab. unfold round_nd. apply Qred_le.
  pose proof (ten_power_pos nd) as Hs.
  apply Qmult_le_compat_r.
  - rewrite <- Zle_Qle. apply round_half_even_mono.
    apply Qmult_le_compat_r; [exact Hab | now apply Qlt_le_weak].
  - apply Qinv_le_0_compat. now apply Qlt_le_weak.
Qed.

Lemma Qmult_1_l_eq (x : Q) : 1 * x = x.
Proof. destruct x as [n d]. unfold Qmult. cbn. now destruct n. Qed.

#[global] Instance laws : FloatLaws Q.
Proof.
  constructor.
  - intros x y H. apply ltb_Qlt in H. apply Fle_Qle. now apply Qlt_le_weak.
  - intros x y z. rewrite !Fle_Qle. apply Qle_trans.
  - reflexivity.
  - reflexivity.
  - intros a b c d. rewrite !Fle_Qle. apply Qplus_le_compat.
  - intros a b. rewrite !Fle_Qle. cbn. intros Ha Hb. lra.
  - intros a b c. rewrite !Fle_Qle. cbn. intros Hc Hab.
    now apply Qmult_le_compat_r.
  - intros n Hn. reflexivity.
  - intros x. apply Qmult_1_l_eq.
  - intros x. rewrite !Fle_Qle. cbn. intros Hx.
    apply Qle_shift_div_l; [reflexivity | lra].
  - intros n Hn. apply Fle_Qle. rewrite Zle_Qle in Hn. exact Hn.
  - intros a b. rewrite Fle_Qle. apply round_half_even_mono.
  - reflexivity.
  - intros n Hn. apply round_half_even_Z.
  - intros a b nd. rewrite !Fle_Qle. apply round_nd_mono.
  - reflexivity.
  - intros n Hn. apply Fle_Qle.
    change (0 <= Qred (inject_Z n / inject_Z (10 ^ 9))).
    rewrite Qred_correct.
    apply Qle_shift_div_l; [reflexivity|].
    rewrite Qmult_0_l. rewrite Zle_Qle in Hn. exact Hn.
Qed.

End QFloatLaws.

(** ** The theorems at work on the small chain *)

Local Open Scope Q_scope.

Lemma wei_block_5 : wei_block Demo.block_5.
Proof.
  split; [now vm_compute|].
  repeat constructor; now vm_compute.
Defined.

Lemma sample_block_fees_reference_witness :
  wei_block Demo.block_5 /\
  sample_block_fees Demo.block_5 =
  Ok {| base_fee_gwei := 50; median_effective_gwei := 52; median_tip_gwei := 2 |}.
Proof.
  split; [exact wei_block_5|].
  rewrite (sample_block_fees_reference (F := Q) Demo.block_5 wei_block_5).
  reflexivity.
Defined.

Lemma analyze_fees_recommendation_witness :
  exists r,
    analyze_fees Demo.clock_a Demo.w3 1000 3 (4 # 5) (Some 5%Z) = Ok r /\
    exists st tip_target base_target,
      sample_window Demo.w3 5 1000 3 = Ok st /\
      pct (tips st) (4 # 5) = Ok tip_target /\
      pct (base_fees st) (4 # 5) = Ok base_target /\
      maxPriorityFeeGwei (recommendedForZK r) =
        Fround_nd (Fmul (py_max2 (ref_median (tips st)) tip_target) F1_2) 3 /\
      maxFeePerGasGwei (recommendedForZK r) =
        Fround_nd (Fadd base_target (maxPriorityFeeGwei (recommendedForZK r))) 3.
Proof.
  eexists. split; [vm_compute; reflexivity|].
  apply (analyze_fees_recommendation Demo.clock_a Demo.w3 1000 3 (4 # 5) (Some 5%Z)).
  vm_compute. reflexivity.
Defined.

Lemma pct_nearest_rank_witness :
  [3; 1; 2] <> [] /\
  (Z.of_nat (length [3; 1; 2]) - 1 <= 2 ^ 53)%Z /\
  pct [3; 1; 2] (1 # 2) = Ok 2 /\
  (exists m, pct [3; 1; 2] 0 = Ok m /\ In m [3; 1; 2] /\
             forall v, In v [3; 1; 2] -> Fle m v) /\
  (exists M, pct [3; 1; 2] 1 = Ok M /\ In M [3; 1; 2] /\
             forall v, In v [3; 1; 2] -> Fle v M).
Proof.
  assert (Hne : [3; 1; 2] <> []) by discriminate.
  assert (Hbig : (Z.of_nat (length [3; 1; 2]) - 1 <= 2 ^ 53)%Z) by now vm_compute.
  destruct (pct_nearest_rank (F := Q) [3; 1; 2] (1 # 2) Hne Hbig)
    as (_ & _ & _ & _ & Hq & Hmin & Hmax).
  split; [exact Hne|]. split; [exact Hbig|].
  split; [rewrite Hq; reflexivity|].
  split; [exact Hmin | exact Hmax].
Defined.

Lemma sample_heights_window_floor_witness :
  (0 <= 5)%Z /\ (0 < 1000)%Z /\ (0 < 3)%Z /\
  exists hs,
    sample_heights 5 1000 3 = Ok hs /\
    (forall h, In h hs <->
               (exists k, (0 <= k)%Z /\ h = (5 - k * 3)%Z) /\
               (Z.max 0 (5 - 1000 + 1) <= h)%Z) /\
    (5 - Z.of_nat (length hs) * 3 < Z.max 0 (5 - 1000 + 1))%Z.
Proof.
  assert (H0 : (0 <= 5)%Z) by lia.
  assert (H1 : (0 < 1000)%Z) by lia.
  assert (H2 : (0 < 3)%Z) by lia.
  split; [exact H0|]. split; [exact H1|]. split; [exact H2|].
  destruct (proj1 (sample_heights_window_floor (F := Q)) 5%Z 1000%Z 3%Z H0 H1 H2)
    as (hs & Hhs & _ & Hin & Hstop & _).
  exists hs. split; [exact Hhs|]. split; [exact Hin | exact Hstop].
Defined.

Lemma sample_window_series_witness :
  exists st,
    sample_window Demo.w3 5 1000 3 = Ok st /\
    exists hs stats,
      sample_heights 5 1000 3 = Ok hs /\
      Forall2 (sampled_at Demo.w3) hs stats /\
      base_fees st = map base_fee_gwei stats /\
      effs st = filter (Fltb Fzero) (map median_effective_gwei stats) /\
      tips st = filter (Fltb Fzero) (map median_tip_gwei stats).
Proof.
  eexists. split; [vm_compute; reflexivity|].
  apply (sample_window_series (F := Q) Demo.w3 5 1000 3).
  vm_compute. reflexivity.
Defined.

Lemma analyze_fees_fetch_failure_witness :
  sample_heights (head_of Demo.w3_gap None) 1000 3 = Ok [5; 2]%Z /\
  In 2%Z [5; 2]%Z /\
  get_block Demo.w3_gap 2 = Err (BlockNotFound 2) /\
  exists e, analyze_fees Demo.clock_a Demo.w3_gap 1000 3 (4 # 5) None = Err e.
Proof.
  assert (Hhs : sample_heights (head_of Demo.w3_gap None) 1000 3 = Ok [5; 2]%Z)
    by reflexivity.
  assert (Hin : In 2%Z [5; 2]%Z) by (right; left; reflexivity).
  assert (Hfail : get_block Demo.w3_gap 2 = Err (BlockNotFound 2)) by reflexivity.
  split; [exact Hhs|]. split; [exact Hin|]. split; [exact Hfail|].
  exact (analyze_fees_fetch_failure Demo.clock_a Demo.w3_gap 1000 3 (4 # 5) None
           [5; 2]%Z 2%Z (BlockNotFound 2) Hhs Hin Hfail).
Defined.

(** C7 fails on the code: the same client and the same parameters, under
    two clocks, give two reports that differ (in [timingSec]: 1.5 and
    2.25). *)
Lemma analyze_fees_depends_on_clock :
  analyze_fees Demo.clock_a Demo.w3 1000 3 (4 # 5) (Some 5%Z) <>
  analyze_fees Demo.clock_b Demo.w3 1000 3 (4 # 5) (Some 5%Z).
Proof.
  intros H. apply (f_equal (result_map timingSec)) in H.
  vm_compute in H. discriminate H.
Qed.

Lemma analyze_fees_up_to_timing_witness :
  chain_id Demo.w3 = chain_id Demo.w3 /\
  block_number Demo.w3 = block_number Demo.w3 /\
  (forall n, get_block Demo.w3 n = get_block Demo.w3 n) /\
  result_map (set_timing 0)
    (analyze_fees Demo.clock_a Demo.w3 1000 3 (4 # 5) (Some 5%Z)) =
  result_map (set_timing 0)
    (analyze_fees Demo.clock_b Demo.w3 1000 3 (4 # 5) (Some 5%Z)).
Proof.
  split; [reflexivity|]. split; [reflexivity|]. split; [reflexivity|].
  apply (analyze_fees_up_to_timing Demo.clock_a Demo.clock_b Demo.w3 Demo.w3
           1000 3 (4 # 5) (Some 5%Z) eq_refl eq_refl (fun n => eq_refl)).
Defined.

Lemma recommended_max_fee_monotone_witness :
  Fle (1 # 2) (19 # 20) /\
  exists r1 r2,
    report Demo.w3 5 4 1 (1 # 2) Demo.series 0 = Ok r1 /\
    report Demo.w3 5 4 1 (19 # 20) Demo.series 0 = Ok r2 /\
    maxFeePerGasGwei (recommendedForZK r1) = 223 # 5 /\
    maxFeePerGasGwei (recommendedForZK r2) = 62 /\
    Fle (maxFeePerGasGwei (recommendedForZK r1))
        (maxFeePerGasGwei (recommendedForZK r2)).
Proof.
  assert (Hq : Fle (1 # 2) (19 # 20)) by reflexivity.
  split; [exact Hq|].
  do 2 eexists.
  split; [vm_compute; reflexivity|].
  split; [vm_compute; reflexivity|].
  split; [reflexivity|]. split; [reflexivity|].
  apply (recommended_max_fee_monotone Demo.w3 5 4 1 Demo.series 0 (1 # 2) (19 # 20));
    [exact Hq | vm_compute; reflexivity..].
Defined.

Lemma sample_block_fees_invariant_witness :
  Forall nonneg_tx (transactions Demo.block_2) /\
  exists s,
    sample_block_fees Demo.block_2 = Ok s /\
    Fle Fzero (base_fee_gwei s) /\
    Fle Fzero (median_effective_gwei s) /\
    Fle Fzero (median_tip_gwei s).
Proof.
  assert (Hnn : Forall nonneg_tx (transactions Demo.block_2))
    by (repeat constructor; now vm_compute).
  split; [exact Hnn|].
  eexists. split; [vm_compute; reflexivity|].
  apply (sample_block_fees_invariant (F := Q) Demo.block_2 _ Hnn).
  vm_compute. reflexivity.
Defined.

Lemma target_percentile_not_rejected_witness :
  (0 < 1000 <= 2 ^ 53)%Z /\ (0 < 3)%Z /\
  exists r,
    analyze_fees Demo.clock_a Demo.w3 1000 3 (3 # 2) None = Ok r /\
    targetPercentile r = 3 # 2 /\
    pct (base_fees Demo.series) (3 # 2) = pct (base_fees Demo.series) 1.
Proof.
  assert (Hb : (0 < 1000 <= 2 ^ 53)%Z) by (split; now vm_compute).
  assert (Hs : (0 < 3)%Z) by lia.
  split; [exact Hb|]. split; [exact Hs|].
  destruct (target_percentile_not_rejected Demo.clock_a Demo.w3 1000 3 (3 # 2) None Hb Hs)
    as (Hrun & Hfield & Hclamp).
  destruct (sample_window Demo.w3 (head_of Demo.w3 None) 1000 3) as [st|e] eqn:Hw;
    [|vm_compute in Hw; discriminate Hw].
  destruct (Hrun st eq_refl) as [r Hr].
  exists r. split; [exact Hr|]. split; [exact (Hfield r Hr)|].
  apply Hclamp.
Defined.

Close Scope Q_scope.

(** * More of the program *)

(** ** [network_name] *)

Lemma string_length_append (a b : string) :
  String.length (a ++ b) = (String.length a + String.length b)%nat.
Proof. induction a as [|c a IH]; cbn; [reflexivity | now rewrite IH]. Qed.

Lemma append_inj_r (p a b : string) : (a ++ p = b ++ p -> a = b)%string.
Proof.
  intros H.
  assert (Hlen : String.length a = String.length b).
  { apply (f_equal String.length) in H.
    rewrite !string_length_append in H. lia. }
  revert b H Hlen. induction a as [|c a IH]; intros [|c' b] H Hlen;
    try discriminate; [reflexivity|].
  cbn in H, Hlen. injection H as -> H. f_equal. apply IH; [exact H | lia].
Qed.

Lemma to_int_not_nil (n : Z) :
  Z.to_int n <> Decimal.Pos Decimal.Nil /\ Z.to_int n <> Decimal.Neg Decimal.Nil.
Proof.
  pose proof (DecimalZ.to_of (Z.to_int n)) as H.
  rewrite DecimalZ.of_to in H.
  split; intros E; rewrite E in H; discriminate H.
Qed.

(** [str(n)] can be read back. *)
Lemma str_int_read_back (n : Z) :
  DecimalString.NilZero.int_of_string (str_int n) = Some (Z.to_int n).
Proof.
  destruct (to_int_not_nil n) as [Hp Hn].
  now apply DecimalString.NilZero.isi.
Qed.

Lemma str_int_inj (n m : Z) : str_int n = str_int m -> n = m.
Proof.
  intros H. apply DecimalZ.to_int_inj.
  pose proof (str_int_read_back n) as Hn. rewrite H, str_int_read_back in Hn.
  now injection Hn.
Qed.

Lemma network_name_cases (cid : Z) :
  (known_chain cid /\ dict_get NETWORKS cid <> None) \/
  (~ known_chain cid /\
   network_name cid = ("Unknown (chain ID " ++ str_int cid ++ ")")%string).
Proof.
  unfold known_chain, network_name. cbn [NETWORKS map fst dict_get In].
  repeat (match goal with
          | |- context [?k =? cid] =>
            destruct (Z.eqb_spec k cid) as [<-|?];
            [left; split; [tauto | discriminate] |]
          end).
  right. split; [intuition congruence | reflexivity].
Qed.

(** X1: a chain id of the table gets the name of the table, any other one
    gets ["Unknown (chain ID <id>)"] with the id in decimal, and no two
    chain ids get the same name. *)
Theorem network_name_injective :
  (forall cid, ~ known_chain cid ->
     network_name cid = ("Unknown (chain ID " ++ str_int cid ++ ")")%string) /\
  (forall cid, known_chain cid -> dict_get NETWORKS cid = Some (network_name cid)) /\
  (forall cid cid', network_name cid = network_name cid' -> cid = cid').
Proof.
  split; [|split].
  - intros cid Hk. destruct (network_name_cases cid) as [[Hk' _]|[_ H]]; tauto.
  - intros cid Hk. unfold network_name.
    destruct (dict_get NETWORKS cid) eqn:E; [reflexivity|].
    destruct (network_name_cases cid) as [[_ H]|[H _]]; [congruence | tauto].
  - intros cid cid'. unfold network_name. cbn [NETWORKS dict_get].
    repeat (match goal with
            | |- context [?k =? cid] => destruct (Z.eqb_spec k cid) as [<-|?]
            end);
    repeat (match goal with
            | |- context [?k =? cid'] => destruct (Z.eqb_spec k cid') as [<-|?]
            end);
    try reflexivity; try discriminate; try congruence.
    intros H. cbn in H. injection H as H.
    apply append_inj_r in H. now apply str_int_inj.
Qed.

(** ** More of [sample_block_fees] *)

Section ExtractorEdges.

Context {F : Type} {ops : FloatOps F}.







Lemma tx_step_reads_alike (bf : Z) (acc : list F * list F) (tx tx' : Tx) :
  reads_alike tx tx' -> tx_step bf acc tx = tx_step bf acc tx'.
Proof.
  unfold reads_alike, tx_step. destruct acc as [es ts].
  destruct (Z.eqb_spec (get0 (tx_type tx)) 2) as [E|E].
  - intros (-> & -> & ->). reflexivity.
  - intros [E' ->]. now destruct (Z.eqb_spec (get0 (tx_type tx')) 2).
Qed.

(** X3: [sample_block_fees] reads of a transaction only its type and, for
    type 2, [maxFeePerGas] and [maxPriorityFeePerGas], for any other type
    [gasPrice]; a missing key reads as 0 and a missing type as a type
    other than 2.  Two blocks alike in this give the same result. *)
Theorem sample_block_fees_reads (block block' : Block) :
  get0 (baseFeePerGas block) = get0 (baseFeePerGas block') ->
  Forall2 reads_alike (transactions block) (transactions block') ->
  @sample_block_fees F ops block = sample_block_fees block'.
Proof.
  intros Hbf Htxs. unfold sample_block_fees. rewrite <- Hbf.
  destruct (from_wei_gwei (get0 (baseFeePerGas block))); [|reflexivity].
  cbn [bind].
  assert (Hloop : forall acc : list F * list F,
             for_each (tx_step (get0 (baseFeePerGas block))) (transactions block) acc =
             for_each (tx_step (get0 (baseFeePerGas block))) (transactions block') acc).
  { induction Htxs as [|tx tx' txs txs' Htx _ IH]; intros acc; cbn [for_each];
      [reflexivity|].
    rewrite (tx_step_reads_alike _ _ _ _ Htx).
    destruct (tx_step _ acc tx'); cbn [bind]; [apply IH | reflexivity]. }
  now rewrite Hloop.
Qed.

End ExtractorEdges.

(** ** More of [pct] *)

Section PercentileEdges.

Context {F : Type} {ops : FloatOps F}.

Lemma py_index_in {A : Type} (xs : list A) (i : Z) (a : A) :
  py_index xs i = Ok a -> In a xs.
Proof.
  unfold py_index. destruct (_ || _); [discriminate|].
  destruct (nth_error xs _) as [x|] eqn:E; [|discriminate].
  intros [= <-]. eapply nth_error_In, E.
Qed.

Lemma pct_in (values : list F) (q v : F) :
  values <> [] -> pct values q = Ok v -> In v values.
Proof.
  intros Hne. destruct values as [|x xs]; [easy|].
  unfold pct. intros H. apply py_index_in in H. now apply sorted_in.
Qed.

(** X4: [pct] never interpolates: what it returns for a non-empty series
    is one of the values of the series, whatever [q] is. *)
Theorem pct_returns_a_sample (values : list F) (q v : F) :
  values <> [] -> pct values q = Ok v -> In v values.
Proof. apply pct_in. Qed.

Context {laws : FloatLaws F}.

Lemma Feqv_refl (x : F) : Feqv x x.
Proof. split; apply Fle_refl. Qed.

Lemma Feqv_trans (x y z : F) : Feqv x y -> Feqv y z -> Feqv x z.
Proof. intros [H1 H2] [H3 H4]. split; eapply Fle_trans; eassumption. Qed.

Lemma Fltb_eqv_l (y y' x : F) : Feqv y y' -> Fltb y x = Fltb y' x.
Proof.
  intros [H1 H2].
  destruct (Fltb y x) eqn:E, (Fltb y' x) eqn:E'; try reflexivity.
  - assert (Hc : Fle x y) by (eapply Fle_trans; [exact E' | exact H2]).
    unfold Fle in Hc. congruence.
  - assert (Hc : Fle x y') by (eapply Fle_trans; [exact E | exact H1]).
    unfold Fle in Hc. congruence.
Qed.

Lemma Fltb_eqv_r (y x x' : F) : Feqv x x' -> Fltb y x = Fltb y x'.
Proof.
  intros [H1 H2].
  destruct (Fltb y x) eqn:E, (Fltb y x') eqn:E'; try reflexivity.
  - assert (Hc : Fle x y) by (eapply Fle_trans; [exact H1 | exact E']).
    unfold Fle in Hc. congruence.
  - assert (Hc : Fle x' y) by (eapply Fle_trans; [exact H2 | exact E]).
    unfold Fle in Hc. congruence.
Qed.

Lemma Fle_lt_trans (x z y : F) : Fle x z -> Fltb z y = true -> Fltb x y = true.
Proof.
  intros Hxz Hzy. destruct (Fltb x y) eqn:E; [reflexivity|].
  assert (Hc : Fle y z) by (eapply Fle_trans; [exact E | exact Hxz]).
  unfold Fle in Hc. congruence.
Qed.

Lemma insert_eqv (x x' : F) (s s' : list F) :
  Feqv x x' -> Forall2 Feqv s s' -> Forall2 Feqv (insert x s) (insert x' s').
Proof.
  intros Hx Hs. induction Hs as [|y y' s s' Hy Hs IH]; cbn [insert].
  - constructor; [exact Hx | constructor].
  - rewrite <- (Fltb_eqv_l y y' x' Hy), <- (Fltb_eqv_r y x x' Hx).
    destruct (Fltb y x).
    + constructor; [exact Hy | exact IH].
    + constructor; [exact Hx | constructor; [exact Hy | exact Hs]].
Qed.

Lemma Forall2_eqv_refl (s : list F) : Forall2 Feqv s s.
Proof. induction s; constructor; [apply Feqv_refl | assumption]. Qed.

Lemma Forall2_eqv_trans (s1 s2 s3 : list F) :
  Forall2 Feqv s1 s2 -> Forall2 Feqv s2 s3 -> Forall2 Feqv s1 s3.
Proof.
  intros H12. revert s3. induction H12 as [|a b s1 s2 Hab _ IH]; intros s3 H23;
    inversion H23; subst; constructor; [eapply Feqv_trans; eassumption | now apply IH].
Qed.

Lemma insert_swap (x y : F) (s : list F) :
  Forall2 Feqv (insert x (insert y s)) (insert y (insert x s)).
Proof.
  induction s as [|z s IH]; cbn [insert].
  - destruct (Fltb y x) eqn:Eyx, (Fltb x y) eqn:Exy; cbn [insert];
      rewrite ?Eyx, ?Exy; try apply Forall2_eqv_refl.
    + pose proof (Flt_asym _ _ Eyx). congruence.
    + constructor; [split; assumption|].
      constructor; [split; assumption | constructor].
  - destruct (Fltb z y) eqn:Ezy, (Fltb z x) eqn:Ezx; cbn [insert];
      rewrite ?Ezy, ?Ezx.
    + constructor; [apply Feqv_refl | exact IH].
    + rewrite (Fle_lt_trans x z y Ezx Ezy). apply Forall2_eqv_refl.
    + rewrite (Fle_lt_trans y z x Ezy Ezx). apply Forall2_eqv_refl.
    + destruct (Fltb y x) eqn:Eyx, (Fltb x y) eqn:Exy; cbn [insert];
        rewrite ?Ezy, ?Ezx; try apply Forall2_eqv_refl.
      * pose proof (Flt_asym _ _ Eyx). congruence.
      * constructor; [split; assumption|].
        constructor; [split; assumption | apply Forall2_eqv_refl].
Qed.

Lemma sorted_perm_eqv (l l' : list F) :
  Permutation l l' -> Forall2 Feqv (sorted l) (sorted l').
Proof.
  induction 1 as [|x l l' _ IH|x y l|l1 l2 l3 _ IH1 _ IH2]; cbn [sorted].
  - constructor.
  - apply insert_eqv; [apply Feqv_refl | exact IH].
  - apply insert_swap.
  - eapply Forall2_eqv_trans; eassumption.
Qed.

Lemma Forall2_nth_eqv (s s' : list F) (d : F) (i : nat) :
  Forall2 Feqv s s' -> Feqv (nth i s d) (nth i s' d).
Proof.
  intros H. revert i. induction H as [|a b s s' Hab _ IH]; intros [|i]; cbn;
    try apply Feqv_refl; [exact Hab | apply IH].
Qed.

(** X5: the order of the series does not matter to [pct]: on two series
    that are permutations of each other it raises on both or returns two
    values that compare equal. *)
Theorem pct_permutation (values values' : list F) (q a : F) :
  Permutation values values' ->
  pct values q = Ok a ->
  exists b, pct values' q = Ok b /\ Feqv a b.
Proof.
  intros Hp Ha. pose proof (Permutation_length Hp) as Hlen.
  destruct values as [|x xs].
  - apply Permutation_nil in Hp. subst. exists a. split; [exact Ha | apply Feqv_refl].
  - destruct values' as [|x' xs']; [discriminate|].
    rewrite pct_unfold in *. rewrite <- Hlen.
    set (i := pct_index (length (x :: xs)) q) in *.
    pose proof (pct_index_nonneg (length (x :: xs)) q ltac:(cbn; lia)) as Hi.
    fold i in Hi.
    destruct (py_index_ok_inv _ _ _ Fzero Hi Ha) as [Hlt ->].
    exists (nth (Z.to_nat i) (sorted (x' :: xs')) Fzero). split.
    + apply py_index_in_range. rewrite sorted_length in *. lia.
    + apply Forall2_nth_eqv, sorted_perm_eqv, Hp.
Qed.

Lemma py_min_spec (x : F) (xs : list F) :
  In (py_min x xs) (x :: xs) /\ forall y, In y (x :: xs) -> Fle (py_min x xs) y.
Proof.
  unfold py_min. revert x. induction xs as [|z xs IH]; intros x; cbn [fold_left].
  - split; [now left|]. intros y [<-|[]]. apply Fle_refl.
  - destruct (IH (py_min2 x z)) as [Hin Hlow].
    destruct (py_min2_cases x z) as (Hx & Hz & Hor).
    split.
    + destruct Hin as [Hin|Hin]; [|right; right; exact Hin].
      rewrite <- Hin. destruct Hor as [-> | ->]; [now left | right; now left].
    + intros y [<-|[<-|Hy]].
      * eapply Fle_trans; [apply Hlow; now left | exact Hx].
      * eapply Fle_trans; [apply Hlow; now left | exact Hz].
      * apply Hlow. now right.
Qed.

Lemma py_max_spec (x : F) (xs : list F) :
  In (py_max x xs) (x :: xs) /\ forall y, In y (x :: xs) -> Fle y (py_max x xs).
Proof.
  unfold py_max. revert x. induction xs as [|z xs IH]; intros x; cbn [fold_left].
  - split; [now left|]. intros y [<-|[]]. apply Fle_refl.
  - destruct (IH (py_max2 x z)) as [Hin Hup].
    destruct (py_max2_cases x z) as (Hx & Hz & Hor).
    split.
    + destruct Hin as [Hin|Hin]; [|right; right; exact Hin].
      rewrite <- Hin. destruct Hor as [-> | ->]; [now left | right; now left].
    + intros y [<-|[<-|Hy]].
      * eapply Fle_trans; [exact Hx | apply Hup; now left].
      * eapply Fle_trans; [exact Hz | apply Hup; now left].
      * apply Hup. now right.
Qed.

End PercentileEdges.

(** ** More of [analyze_fees] *)

Section AggregatorEdges.

Context {F : Type} {ops : FloatOps F}.

(** [report] with its medians and guards resolved: it can only raise where
    [pct] does. *)
Lemma report_unfold (w3 : Web3) (head blocks step : Z) (q : F) (st : Series)
      (elapsed : F) :
  report w3 head blocks step q st elapsed =
  (base_target <- pct (base_fees st) q ;;
   tip_target <- pct (tips st) q ;;
   Ok {| chainId := chain_id w3;
         network := network_name (chain_id w3);
         head := head;
         sampledBlocks := sampled_blocks st;
         blockWindow := blocks;
         step := step;
         targetPercentile := q;
         timingSec := Fround_nd elapsed 2;
         baseFeeGwei :=
           {| bf_p50 := Fround_nd (ref_median (base_fees st)) 3;
              bf_pTarget := Fround_nd base_target 3;
              bf_min := min_or_zero (base_fees st);
              bf_max := max_or_zero (base_fees st) |};
         medianEffectivePriceGwei :=
           match effs st with
           | [] => Fzero
           | _ => Fround_nd (ref_median (effs st)) 3
           end;
         medianTipGwei :=
           {| tip_p50 := Fround_nd (ref_median (tips st)) 3;
              tip_pTarget := Fround_nd tip_target 3 |};
         recommendedForZK :=
           {| maxPriorityFeeGwei :=
                recommended_tip (ref_median (tips st)) tip_target;
              maxFeePerGasGwei :=
                recommended_max_fee base_target
                  (recommended_tip (ref_median (tips st)) tip_target) |} |}).
Proof.
  unfold report. rewrite !median_or_zero_ref, !pct_or_zero_pct. reflexivity.
Qed.

(** X6: the call of [range] raises exactly when [step] is 0: then
    [analyze_fees] raises ValueError whatever the client, the window and
    the head, and returns no report; for any other [step] the heights to
    visit are defined. *)
Theorem analyze_fees_step_zero :
  (forall (now : Clock) w3 blocks (q : F) head_override,
     analyze_fees now w3 blocks 0 q head_override = Err ValueError) /\
  (forall head blocks step,
     step <> 0 -> exists hs, sample_heights head blocks step = Ok hs).
Proof.
  split.
  - intros now w3 blocks q head_override. reflexivity.
  - intros head blocks step Hstep. unfold sample_heights, py_range.
    destruct (Z.eqb_spec (- step) 0) as [E|_]; [lia|].
    eexists. reflexivity.
Qed.

Lemma py_max2_same (x : F) : py_max2 x x = x.
Proof. unfold py_max2. now destruct (Fltb x x). Qed.

(** X7: a window that holds no block, [blocks <= 0] or a negative head,
    is no error: with [step > 0] the client is asked for no block and
    the report counts 0 sampled blocks, with 0.0 for the minimum, the
    maximum and the median effective price, and the roundings of 0.0
    elsewhere. *)
Theorem analyze_fees_empty_window (now : Clock) (w3 : Web3) (blocks step : Z)
        (q : F) (head : Z) :
  0 < step -> blocks <= 0 \/ head < 0 ->
  analyze_fees now w3 blocks step q (Some head) =
  Ok {| chainId := chain_id w3;
        network := network_name (chain_id w3);
        head := head;
        sampledBlocks := 0;
        blockWindow := blocks;
        step := step;
        targetPercentile := q;
        timingSec := Fround_nd (Fsub (now 1%nat) (now 0%nat)) 2;
        baseFeeGwei :=
          {| bf_p50 := Fround_nd Fzero 3;
             bf_pTarget := Fround_nd Fzero 3;
             bf_min := Fzero;
             bf_max := Fzero |};
        medianEffectivePriceGwei := Fzero;
        medianTipGwei :=
          {| tip_p50 := Fround_nd Fzero 3; tip_pTarget := Fround_nd Fzero 3 |};
        recommendedForZK :=
          {| maxPriorityFeeGwei := Fround_nd (Fmul Fzero F1_2) 3;
             maxFeePerGasGwei :=
               Fround_nd (Fadd Fzero (Fround_nd (Fmul Fzero F1_2) 3)) 3 |} |}.
Proof.
  intros Hs Hempty. unfold analyze_fees, sample_window, sample_heights.
  rewrite py_range_down_empty by (unfold start_block; lia).
  cbn [bind for_each]. rewrite report_unfold. cbn [bind pct no_series base_fees tips].
  unfold recommended_max_fee, recommended_tip, ref_median. cbn.
  now rewrite py_max2_same.
Qed.

(** X8: for [head >= 0], [blocks > 0] and [step > 0] no height is visited
    twice, every visited height is a block of the chain up to the head
    and within the window, and their number is
    [(min(blocks, head + 1) - 1) // step + 1], at least 1 and at most
    [blocks]; a run that returns reports this number as [sampledBlocks]. *)
Theorem sample_heights_count (head blocks step : Z) :
  0 <= head -> 0 < blocks -> 0 < step ->
  exists hs,
    sample_heights head blocks step = Ok hs /\
    NoDup hs /\
    Forall (fun h => 0 <= h <= head /\ head - blocks < h) hs /\
    Z.of_nat (length hs) = (Z.min blocks (head + 1) - 1) / step + 1 /\
    1 <= Z.of_nat (length hs) <= blocks /\
    (forall (now : Clock) w3 (q : F) r,
       analyze_fees now w3 blocks step q (Some head) = Ok r ->
       sampledBlocks r = (Z.min blocks (head + 1) - 1) / step + 1).
Proof.
  intros Hh Hb Hs.
  pose proof (window_len_bounds head blocks step Hh Hb Hs) as Hlen.
  cbv zeta in Hlen. destruct Hlen as (Hlen & Hlast & Hnext).
  pose proof (start_block_range head blocks Hh Hb) as [Hfloor Hwin].
  assert (Hcount : window_len head blocks step =
                   (Z.min blocks (head + 1) - 1) / step + 1).
  { unfold window_len, start_block. do 2 f_equal. lia. }
  eexists. split; [now apply sample_heights_window|].
  rewrite length_map, length_seq, Z2Nat.id by lia.
  split; [|split; [|split; [exact Hcount | split; [lia|]]]].
  - apply Finite.Injective_map_NoDup; [|apply seq_NoDup].
    intros i j Hij. nia.
  - apply Forall_forall. intros h Hin. apply in_map_iff in Hin.
    destruct Hin as (k & <- & Hk). apply in_seq in Hk. nia.
  - intros now w3 q r Hr.
    destruct (sampled_blocks_heights now w3 blocks step q (Some head) r _ Hr
                (sample_heights_window head blocks step Hh Hb Hs)) as [Hc _].
    rewrite length_map, length_seq, Z2Nat.id in Hc by lia. now rewrite Hc.
Qed.

Lemma sample_loop_succeeds (w3 : Web3) (hs : list Z) :
  Forall (fun h => exists blk (s : BlockFeeStats),
                   get_block w3 h = Ok blk /\ sample_block_fees blk = Ok s) hs ->
  forall st : Series, exists st', for_each (sample_step w3) hs st = Ok st'.
Proof.
  induction 1 as [|h hs (blk & s & Hblk & Hs) _ IH]; intros st; cbn [for_each].
  - now exists st.
  - unfold sample_step at 1. rewrite Hblk. cbn [bind]. rewrite Hs. cbn [bind].
    apply IH.
Qed.

(** X9: the first sampled height the client fails on ends the run with the
    client's own exception: when every height before it was fetched and
    gave statistics, [analyze_fees] raises exactly what [get_block]
    raised, whatever the later heights hold. *)
Theorem analyze_fees_first_failure (now : Clock) (w3 : Web3) (blocks step : Z)
        (q : F) (head_override : option Z) (before after : list Z) (n : Z) (e : exn) :
  sample_heights (head_of w3 head_override) blocks step = Ok (before ++ n :: after) ->
  Forall (fun h => exists blk (s : BlockFeeStats),
                   get_block w3 h = Ok blk /\ sample_block_fees blk = Ok s) before ->
  get_block w3 n = Err e ->
  analyze_fees now w3 blocks step q head_override = Err e.
Proof.
  intros Hhs Hbefore Hfail. unfold analyze_fees. fold (head_of w3 head_override).
  unfold sample_window. rewrite Hhs. cbn [bind].
  rewrite for_each_app.
  destruct (sample_loop_succeeds w3 before Hbefore no_series) as [st ->].
  cbn [bind for_each]. unfold sample_step at 1. rewrite Hfail. reflexivity.
Qed.

(** X10: [analyze_fees] looks at the chain only through the chain id, the
    head and the blocks of the sampled heights: on two clients that agree
    on these it returns the same. *)
Theorem analyze_fees_local (now : Clock) (w3 w3' : Web3) (blocks step : Z)
        (q : F) (head_override : option Z) (hs : list Z) :
  chain_id w3 = chain_id w3' ->
  head_of w3 head_override = head_of w3' head_override ->
  sample_heights (head_of w3 head_override) blocks step = Ok hs ->
  (forall n, In n hs -> get_block w3 n = get_block w3' n) ->
  analyze_fees now w3 blocks step q head_override =
  analyze_fees now w3' blocks step q head_override.
Proof.
  intros Hcid Hhead Hhs Hblk. unfold analyze_fees.
  fold (head_of w3 head_override) (head_of w3' head_override).
  rewrite <- Hhead. unfold sample_window. rewrite Hhs. cbn [bind].
  rewrite (for_each_ext (sample_step w3) (sample_step w3') hs).
  - destruct (for_each _ _ _); [|reflexivity]. cbn [bind].
    unfold report. now rewrite Hcid.
  - intros n Hn st. unfold sample_step. now rewrite (Hblk n Hn).
Qed.


Context {laws : FloatLaws F}.



(** X12: in the report of a run that sampled at least one block, the base
    fee at the target percentile lies between the reported minimum and
    maximum: [min <= pTarget <= max]. *)
Theorem base_fee_target_between (now : Clock) (w3 : Web3) (blocks step : Z)
        (q : F) (head_override : option Z) (r : FeeReport) :
  analyze_fees now w3 blocks step q head_override = Ok r ->
  0 < sampledBlocks r ->
  Fle (bf_min (baseFeeGwei r)) (bf_pTarget (baseFeeGwei r)) /\
  Fle (bf_pTarget (baseFeeGwei r)) (bf_max (baseFeeGwei r)).
Proof.
  intros Hr Hpos.
  destruct (analyze_fees_inv _ _ _ _ _ _ _ Hr) as (st & Hw & Hrep).
  rewrite report_unfold in Hrep.
  destruct (pct (base_fees st) q) as [bt|] eqn:Hbt; [|discriminate].
  cbn [bind] in Hrep.
  destruct (pct (tips st) q) as [tt|]; [|discriminate].
  cbn [bind] in Hrep. injection Hrep as <-.
  cbn [baseFeeGwei bf_min bf_max bf_pTarget sampledBlocks] in *.
  destruct (base_fees st) as [|x xs] eqn:Ebf.
  - exfalso.
    destruct (sample_window_inv _ _ _ _ _ Hw)
      as (hs & stats & _ & Hall & Hb & _ & _ & Hc).
    rewrite Ebf in Hb. symmetry in Hb. apply map_eq_nil in Hb. subst stats.
    inversion Hall; subst. cbn in Hc. lia.
  - assert (Hin : In bt (x :: xs))
      by (apply (pct_in (x :: xs) q bt); [discriminate | exact Hbt]).
    unfold min_or_zero, max_or_zero.
    split; apply Fround_nd_mono; [apply py_min_spec | apply py_max_spec]; exact Hin.
Qed.

End AggregatorEdges.

Section EmptyBlocks.

Context {F : Type} {ops : FloatOps F} {laws : FloatLaws F}.

(** X13: a sampled block without transactions is counted and adds its
    base fee (0.0 when the block has none) to the base-fee series, and
    nothing to the series of effective prices and of tips. *)
Theorem sample_step_empty_block (w3 : Web3) (st : Series) (n : Z) (blk : Block) :
  get_block w3 n = Ok blk ->
  transactions blk = [] ->
  wei_range (get0 (baseFeePerGas blk)) ->
  sample_step w3 st n =
  Ok {| base_fees := base_fees st ++ [Fgwei (get0 (baseFeePerGas blk))];
        effs := effs st;
        tips := tips st;
        sampled_blocks := sampled_blocks st + 1 |}.
Proof.
  intros Hblk Htxs Hbf. unfold sample_step. rewrite Hblk. cbn [bind].
  unfold sample_block_fees. rewrite Htxs.
  rewrite (from_wei_gwei_range _ Hbf). cbn.
  pose proof (Fle_refl Fzero) as H0. unfold Fle in H0. now rewrite H0.
Qed.

End EmptyBlocks.

(** ** These properties at work on the small chain *)

Local Open Scope Q_scope.

Lemma network_name_injective_witness :
  ~ known_chain 5 /\ network_name 5 = "Unknown (chain ID 5)"%string /\
  known_chain 10 /\ dict_get NETWORKS 10 = Some (network_name 10).
Proof.
  assert (H5 : ~ known_chain 5)
    by (unfold known_chain; cbn; intuition discriminate).
  assert (H10 : known_chain 10) by (unfold known_chain; cbn; tauto).
  split; [exact H5|].
  split; [exact (proj1 network_name_injective 5%Z H5)|].
  split; [exact H10|].
  exact (proj1 (proj2 network_name_injective) 10%Z H10).
Defined.



Lemma sample_block_fees_reads_witness :
  get0 (baseFeePerGas Demo.block_5) = get0 (baseFeePerGas Demo.block_5_alt) /\
  Forall2 reads_alike (transactions Demo.block_5) (transactions Demo.block_5_alt) /\
  sample_block_fees (F := Q) Demo.block_5 = sample_block_fees Demo.block_5_alt.
Proof.
  assert (Hbf : get0 (baseFeePerGas Demo.block_5) =
                get0 (baseFeePerGas Demo.block_5_alt)) by reflexivity.
  assert (Htxs : Forall2 reads_alike (transactions Demo.block_5)
                         (transactions Demo.block_5_alt)).
  { repeat constructor; try reflexivity; discriminate. }
  split; [exact Hbf|]. split; [exact Htxs|].
  exact (sample_block_fees_reads (F := Q) Demo.block_5 Demo.block_5_alt Hbf Htxs).
Defined.

Lemma pct_returns_a_sample_witness :
  [3; 1; 2] <> [] /\ pct [3; 1; 2] (1 # 2) = Ok 2 /\ In 2 [3; 1; 2].
Proof.
  assert (Hne : [3; 1; 2] <> []) by discriminate.
  assert (Hp : pct [3; 1; 2] (1 # 2) = Ok 2) by reflexivity.
  split; [exact Hne|]. split; [exact Hp|].
  exact (pct_returns_a_sample (F := Q) [3; 1; 2] (1 # 2) 2 Hne Hp).
Defined.

Lemma pct_permutation_witness :
  Permutation [3; 1; 2] [2; 3; 1] /\
  pct [3; 1; 2] (1 # 2) = Ok 2 /\
  exists b, pct [2; 3; 1] (1 # 2) = Ok b /\ Feqv 2 b.
Proof.
  assert (Hperm : Permutation [3; 1; 2] [2; 3; 1]).
  { apply (perm_trans (l' := [3; 2; 1]));
      [apply perm_skip, perm_swap | apply perm_swap]. }
  assert (Hp : pct [3; 1; 2] (1 # 2) = Ok 2) by reflexivity.
  split; [exact Hperm|]. split; [exact Hp|].
  exact (pct_permutation (F := Q) [3; 1; 2] [2; 3; 1] (1 # 2) 2 Hperm Hp).
Defined.

Lemma analyze_fees_empty_window_witness :
  (0 < 3)%Z /\ ((0 <= 0)%Z \/ (5 < 0)%Z) /\
  exists r,
    analyze_fees Demo.clock_a Demo.w3_gap 0 3 (4 # 5) (Some 5%Z) = Ok r /\
    sampledBlocks r = 0%Z /\ bf_max (baseFeeGwei r) = 0.
Proof.
  assert (Hs : (0 < 3)%Z) by lia.
  assert (He : (0 <= 0)%Z \/ (5 < 0)%Z) by (left; lia).
  split; [exact Hs|]. split; [exact He|].
  eexists. split;
    [exact (analyze_fees_empty_window Demo.clock_a Demo.w3_gap 0 3 (4 # 5) 5 Hs He)|].
  split; reflexivity.
Defined.

Lemma sample_heights_count_witness :
  (0 <= 5)%Z /\ (0 < 1000)%Z /\ (0 < 3)%Z /\
  exists hs,
    sample_heights 5 1000 3 = Ok hs /\ NoDup hs /\ Z.of_nat (length hs) = 2%Z.
Proof.
  assert (H0 : (0 <= 5)%Z) by lia.
  assert (H1 : (0 < 1000)%Z) by lia.
  assert (H2 : (0 < 3)%Z) by lia.
  split; [exact H0|]. split; [exact H1|]. split; [exact H2|].
  destruct (sample_heights_count (F := Q) 5 1000 3 H0 H1 H2)
    as (hs & Hhs & Hnd & _ & Hlen & _).
  exists hs. split; [exact Hhs|]. split; [exact Hnd | exact Hlen].
Defined.

Lemma block_5_sampled :
  Forall (fun h => exists blk (s : @BlockFeeStats Q),
                   get_block Demo.w3_gap h = Ok blk /\ sample_block_fees blk = Ok s)
         [5%Z].
Proof.
  constructor; [|constructor].
  exists Demo.block_5. eexists. split; [reflexivity | vm_compute; reflexivity].
Defined.

Lemma analyze_fees_first_failure_witness :
  sample_heights (head_of Demo.w3_gap None) 1000 3 = Ok ([5] ++ 2 :: [])%Z /\
  get_block Demo.w3_gap 2 = Err (BlockNotFound 2) /\
  analyze_fees Demo.clock_a Demo.w3_gap 1000 3 (4 # 5) None = Err (BlockNotFound 2).
Proof.
  assert (Hhs : sample_heights (head_of Demo.w3_gap None) 1000 3 =
                Ok ([5] ++ 2 :: [])%Z) by reflexivity.
  assert (Hfail : get_block Demo.w3_gap 2 = Err (BlockNotFound 2)) by reflexivity.
  split; [exact Hhs|]. split; [exact Hfail|].
  exact (analyze_fees_first_failure Demo.clock_a Demo.w3_gap 1000 3 (4 # 5) None
           [5%Z] [] 2%Z (BlockNotFound 2) Hhs block_5_sampled Hfail).
Defined.

Lemma w3_other_agrees (n : Z) :
  In n [5; 2]%Z -> get_block Demo.w3 n = get_block Demo.w3_other n.
Proof. intros [<-|[<-|[]]]; reflexivity. Defined.

Lemma analyze_fees_local_witness :
  chain_id Demo.w3 = chain_id Demo.w3_other /\
  get_block Demo.w3 0 <> get_block Demo.w3_other 0 /\
  analyze_fees Demo.clock_a Demo.w3 1000 3 (4 # 5) (Some 5%Z) =
  analyze_fees Demo.clock_a Demo.w3_other 1000 3 (4 # 5) (Some 5%Z).
Proof.
  split; [reflexivity|]. split; [discriminate|].
  exact (analyze_fees_local Demo.clock_a Demo.w3 Demo.w3_other 1000 3 (4 # 5)
           (Some 5%Z) [5; 2]%Z eq_refl eq_refl eq_refl w3_other_agrees).
Defined.


Lemma base_fee_target_between_witness :
  exists r,
    analyze_fees Demo.clock_a Demo.w3 1000 3 (4 # 5) (Some 5%Z) = Ok r /\
    (0 < sampledBlocks r)%Z /\
    Fle (bf_min (baseFeeGwei r)) (bf_pTarget (baseFeeGwei r)) /\
    Fle (bf_pTarget (baseFeeGwei r)) (bf_max (baseFeeGwei r)).
Proof.
  eexists. split; [vm_compute; reflexivity|].
  split; [reflexivity|].
  apply (base_fee_target_between Demo.clock_a Demo.w3 1000 3 (4 # 5) (Some 5%Z));
    [vm_compute; reflexivity | reflexivity].
Defined.

Lemma sample_step_empty_block_witness :
  get_block Demo.w3 0 = Ok Demo.block_0 /\
  transactions Demo.block_0 = [] /\
  wei_range (get0 (baseFeePerGas Demo.block_0)) /\
  sample_step Demo.w3 Demo.series 0 =
  Ok {| base_fees := [30 # 1; 50 # 1; 41 # 1; 38 # 1; 0];
        effs := [52 # 1; 35 # 1];
        tips := [2 # 1; 10 # 1; 3 # 1];
        sampled_blocks := 5 |}.
Proof.
  assert (Hr : wei_range (get0 (baseFeePerGas Demo.block_0))) by now vm_compute.
  split; [reflexivity|]. split; [reflexivity|]. split; [exact Hr|].
  rewrite (sample_step_empty_block Demo.w3 Demo.series 0 Demo.block_0
             eq_refl eq_refl Hr).
  reflexivity.
Defined.
